(** * The bytecode fuzzer of Tools/fuzzer/fuzzer/fuzzer.py

    A shallow embedding of the mutation core of the fuzzer: the opcode
    classes of [Fuzzer], the resampling helpers, the operand randomizer,
    the table operations, the opcode substitution engine, the constant
    key derivation and the driver [fuzzer_compile]; with it the generator
    of opcode.h, Tools/scripts/generate_opcode_h.py.

    Conventions.
    - Python values are the inductive [PyVal]; [py_eq] is Python's [==].
    - A [dict] is an association list in insertion order whose keys are
      compared with [py_eq], as a Python dict does for hashable constants.
    - [random] is an entropy stream [nat -> Z] read through a cursor; each
      call of [random.randint] or [random.choice] consumes one draw.
    - Exceptions are the [Raise] results of [Res]; the third result,
      [OutOfFuel], says that a recursive resampling helper went deeper
      than the recursion limit it was given. The limit stands for the
      recursion limit of the interpreter, at which CPython ends the call
      with RecursionError: a call never goes on beyond it. *)

From Stdlib Require Import ZArith List String Ascii Bool Lia.
From Stdlib Require Import Floats.SpecFloat DecimalString.
Import ListNotations.

#[local] Set Warnings "-register-all".

Local Open Scope string_scope.
Local Open Scope Z_scope.

(** ** Results, exceptions and the random source *)

Inductive Exn : Type :=
| KeyError
| ValueError
| IndexError
| SyntaxError
| VerificationError
| RuntimeError
| UnboundLocalError
| OtherError.

(** How a call ends: with a value, with an exception, or, for a
    recursive resampling helper, with the recursion limit reached that
    the call was given (where CPython raises RecursionError). *)
Inductive Res (A : Type) : Type :=
| Ok (a : A)
| Raise (e : Exn)
| OutOfFuel.

Arguments Ok {A} a.
Arguments Raise {A} e.
Arguments OutOfFuel {A}.

(** A computation that reads the random source: from a cursor into the
    entropy stream to a result and the advanced cursor. *)
Definition Rand (A : Type) : Type := nat -> Res (A * nat).

Definition ret {A} (a : A) : Rand A := fun c => Ok (a, c).

Definition bind {A B} (m : Rand A) (k : A -> Rand B) : Rand B :=
  fun c =>
    match m c with
    | Ok (a, c') => k a c'
    | Raise e => Raise e
    | OutOfFuel => OutOfFuel
    end.

Definition raise {A} (e : Exn) : Rand A := fun _ => Raise e.

Definition diverge {A} : Rand A := fun _ => OutOfFuel.

Notation "x <- m ;; k" := (bind m (fun x => k))
  (at level 61, m at next level, right associativity).

(** ** Python values *)

Inductive PyType : Type :=
| TNoneType | TBool | TInt | TFloat | TComplex | TStr | TTuple | TFrozenset
| TObject.

Inductive PyVal : Type :=
| VNone
| VBool (b : bool)
| VInt (z : Z)
| VFloat (f : spec_float)
| VComplex (re im : spec_float)
| VStr (s : string)
| VTuple (items : list PyVal)
| VFrozenset (items : list PyVal)
| VType (t : PyType)
| VObj (id : nat).

Definition type_of (v : PyVal) : PyType :=
  match v with
  | VNone => TNoneType
  | VBool _ => TBool
  | VInt _ => TInt
  | VFloat _ => TFloat
  | VComplex _ _ => TComplex
  | VStr _ => TStr
  | VTuple _ => TTuple
  | VFrozenset _ => TFrozenset
  | VType _ => TObject
  | VObj _ => TObject
  end.

Definition PyType_eqb (a b : PyType) : bool :=
  match a, b with
  | TNoneType, TNoneType | TBool, TBool | TInt, TInt | TFloat, TFloat
  | TComplex, TComplex | TStr, TStr | TTuple, TTuple
  | TFrozenset, TFrozenset | TObject, TObject => true
  | _, _ => false
  end.

(** binary64, the format of a Python float *)
Definition float_eqb (a b : spec_float) : bool := SFeqb a b.

(** [f == z] for a float and an int: exact comparison *)
Definition float_eq_int (f : spec_float) (z : Z) : bool :=
  match f with
  | S754_zero _ => z =? 0
  | S754_finite s m e =>
      let mz := if s then Z.neg m else Z.pos m in
      if 0 <=? e then z =? mz * 2 ^ e else z * 2 ^ (- e) =? mz
  | _ => false
  end.

Definition is_zero (f : spec_float) : bool :=
  match f with S754_zero _ => true | _ => false end.

(** Python's [==] on the values above, of two objects that are not one
    and the same. Numbers compare by value across bool, int, float and
    complex; tuples element-wise; frozensets as sets; type objects and
    other objects by identity.

    Where Python asks first whether the two are the same object (for the
    elements of two tuples, for a key that is looked up in a dict or a
    set), an object that is not [==] to itself, one with a NaN in it, is
    found equal to itself all the same. The values here have no identity,
    so this is not modelled: what is said of the lookup of a key, or of
    the equality of two keys, is said of values that equal themselves
    under [py_eq]. *)
Fixpoint py_eq (a b : PyVal) {struct a} : bool :=
  match a, b with
  | VNone, VNone => true
  | VBool x, VBool y => Bool.eqb x y
  | VBool x, VInt y => Z.b2z x =? y
  | VInt x, VBool y => x =? Z.b2z y
  | VInt x, VInt y => x =? y
  | VBool x, VFloat f => float_eq_int f (Z.b2z x)
  | VFloat f, VBool x => float_eq_int f (Z.b2z x)
  | VInt x, VFloat f => float_eq_int f x
  | VFloat f, VInt x => float_eq_int f x
  | VFloat f, VFloat g => float_eqb f g
  | VComplex r i, VComplex r' i' => float_eqb r r' && float_eqb i i'
  | VComplex r i, VFloat f => is_zero i && float_eqb r f
  | VFloat f, VComplex r i => is_zero i && float_eqb f r
  | VComplex r i, VInt x => is_zero i && float_eq_int r x
  | VInt x, VComplex r i => is_zero i && float_eq_int r x
  | VComplex r i, VBool x => is_zero i && float_eq_int r (Z.b2z x)
  | VBool x, VComplex r i => is_zero i && float_eq_int r (Z.b2z x)
  | VStr s, VStr t => String.eqb s t
  | VTuple l, VTuple l' =>
      (fix all2 (xs ys : list PyVal) {struct xs} : bool :=
         match xs, ys with
         | [], [] => true
         | x :: xs', y :: ys' => py_eq x y && all2 xs' ys'
         | _, _ => false
         end) l l'
  | VFrozenset l, VFrozenset l' =>
      (fix sub (xs : list PyVal) {struct xs} : bool :=
         match xs with
         | [] => true
         | x :: xs' => existsb (py_eq x) l' && sub xs'
         end) l
      &&
      (fix sup (ys : list PyVal) {struct ys} : bool :=
         match ys with
         | [] => true
         | y :: ys' =>
             (fix has (xs : list PyVal) {struct xs} : bool :=
                match xs with
                | [] => false
                | x :: xs' => py_eq x y || has xs'
                end) l
             && sup ys'
         end) l'
  | VType t, VType u => PyType_eqb t u
  | VObj i, VObj j => Nat.eqb i j
  | _, _ => false
  end.

(** ** Dictionaries and the ordered unique table *)

Definition dict (V : Type) : Type := list (PyVal * V).

Section Dict.
Context {V : Type}.

(** [d.get(k)] *)
Fixpoint dict_get (k : PyVal) (d : dict V) : option V :=
  match d with
  | [] => None
  | (k', v) :: d' => if py_eq k' k then Some v else dict_get k d'
  end.

(** [k in d] *)
Definition dict_contains (k : PyVal) (d : dict V) : bool :=
  match dict_get k d with Some _ => true | None => false end.

(** the entries left by [del d[k]] when [k] is a key *)
Fixpoint dict_remove (k : PyVal) (d : dict V) : dict V :=
  match d with
  | [] => []
  | (k', v) :: d' => if py_eq k' k then d' else (k', v) :: dict_remove k d'
  end.

(** [del d[k]]: KeyError when [k] is not a key *)
Definition dict_del (k : PyVal) (d : dict V) : Res (dict V) :=
  if dict_contains k d then Ok (dict_remove k d) else Raise KeyError.

(** [d[k] = v]: an existing key keeps its place, a new one goes last *)
Fixpoint dict_set (k : PyVal) (v : V) (d : dict V) : dict V :=
  match d with
  | [] => [(k, v)]
  | (k', v') :: d' =>
      if py_eq k' k then (k', v) :: d' else (k', v') :: dict_set k v d'
  end.

(** [len(d)] *)
Definition dict_len (d : dict V) : Z := Z.of_nat (List.length d).
End Dict.

(** Modelled from the spec: [pyassem.IndexedSet], the ordered unique table
    (names, local slots, free and cell slots) "from a logical key to a
    stable integer index, insertion order significant, keys unique", with
    "insert-or-lookup (returns existing index if present, else appends)
    and explicit key deletion". The table is the dict [keys] from key to
    index; a key that is appended receives the current number of entries
    as its index. *)
Record IndexedSet : Type := mkIndexedSet { keys : dict Z }.

(** [item in s] *)
Definition iset_contains (item : PyVal) (s : IndexedSet) : bool :=
  dict_contains item (keys s).

(** [len(s)] *)
Definition iset_len (s : IndexedSet) : Z := dict_len (keys s).

(** [s.get_index(item)]: the index, and the table after the call *)
Definition get_index (item : PyVal) (s : IndexedSet) : Z * IndexedSet :=
  match dict_get item (keys s) with
  | Some idx => (idx, s)
  | None =>
      let idx := dict_len (keys s) in
      (idx, mkIndexedSet (dict_set item idx (keys s)))
  end.

(** [del s.keys[item]] *)
Definition iset_del (item : PyVal) (s : IndexedSet) : Res IndexedSet :=
  match dict_del item (keys s) with
  | Ok d => Ok (mkIndexedSet d)
  | Raise e => Raise e
  | OutOfFuel => OutOfFuel
  end.

(** ** Module constants *)

Definition STR_LEN_UPPER_BOUND : Z := 100.
Definition STR_LEN_LOWER_BOUND : Z := 0.
(** [sys.maxsize] of a 64-bit build *)
Definition INT_UPPER_BOUND : Z := 2 ^ 63 - 1.
Definition INT_LOWER_BOUND : Z := - (2 ^ 63 - 1) - 1.
Definition OPARG_LOWER_BOUND : Z := 0.
Definition OPARG_UPPER_BOUND : Z := 2 ^ 32 - 1.
Definition CMP_OP_LENGTH : Z := 12.
Definition INSTR_RANDOMIZATION_CHANCE : Z := 50.

(** ** The opcode classes of [Fuzzer] *)

(** [opcode in s] for a set of opcode names *)
Definition mem (opcode : string) (s : list string) : bool :=
  existsb (String.eqb opcode) s.

Module Fuzzer.

Definition INSTRS_WITH_OPARG_IN_CONSTS : list string :=
  [ "LOAD_CONST"; "LOAD_CLASS"; "INVOKE_FUNCTION"; "INVOKE_METHOD";
    "LOAD_FIELD"; "STORE_FIELD"; "CAST"; "PRIMITIVE_BOX"; "PRIMITIVE_UNBOX";
    "TP_ALLOC"; "CHECK_ARGS"; "BUILD_CHECKED_MAP"; "BUILD_CHECKED_LIST";
    "PRIMITIVE_LOAD_CONST"; "LOAD_LOCAL"; "STORE_LOCAL"; "REFINE_TYPE";
    "LOAD_METHOD_SUPER"; "LOAD_ATTR_SUPER"; "FUNC_CREDENTIAL";
    "READONLY_OPERATION" ].

Definition INSTRS_WITH_OPARG_IN_VARNAMES : list string :=
  [ "LOAD_FAST"; "STORE_FAST"; "DELETE_FAST" ].

Definition INSTRS_WITH_OPARG_IN_NAMES : list string :=
  [ "LOAD_NAME"; "LOAD_GLOBAL"; "STORE_GLOBAL"; "DELETE_GLOBAL";
    "STORE_NAME"; "DELETE_NAME"; "IMPORT_NAME"; "IMPORT_FROM"; "STORE_ATTR";
    "LOAD_ATTR"; "DELETE_ATTR"; "LOAD_METHOD" ].

Definition INSTRS_WITH_OPARG_IN_CLOSURE : list string :=
  [ "LOAD_DEREF"; "STORE_DEREF"; "DELETE_DEREF"; "LOAD_CLASSDEREF";
    "LOAD_CLOSURE" ].

Definition INSTRS_WITH_BRANCHES : list string :=
  [ "FOR_ITER"; "JUMP_ABSOLUTE"; "JUMP_FORWARD"; "JUMP_IF_FALSE_OR_POP";
    "JUMP_IF_TRUE_OR_POP"; "POP_JUMP_IF_FALSE"; "POP_JUMP_IF_TRUE";
    "RETURN_VALUE"; "RAISE_VARARGS"; "JUMP_ABSOLUTE"; "JUMP_FORWARD" ].

Definition INSTRS_WITH_STACK_EFFECT_0 : list string :=
  [ "ROT_TWO"; "ROT_THREE"; "ROT_FOUR"; "NOP"; "UNARY_POSITIVE";
    "UNARY_NEGATIVE"; "UNARY_NOT"; "UNARY_INVERT"; "GET_AITER"; "GET_ITER";
    "GET_YIELD_FROM_ITER"; "GET_AWAITABLE"; "SETUP_ANNOTATIONS";
    "YIELD_VALUE"; "POP_BLOCK"; "DELETE_NAME"; "DELETE_GLOBAL"; "LOAD_ATTR";
    "JUMP_FORWARD"; "JUMP_ABSOLUTE"; "DELETE_FAST"; "DELETE_DEREF";
    "EXTENDED_ARG" ].

Definition INSTRS_WITH_STACK_EFFECT_1 : list string :=
  [ "DUP_TOP"; "GET_ANEXT"; "BEFORE_ASYNC_WITH"; "LOAD_BUILD_CLASS";
    "LOAD_NAME"; "IMPORT_FROM"; "LOAD_GLOBAL"; "LOAD_FAST"; "LOAD_CLOSURE";
    "LOAD_DEREF"; "FUNC_CREDENTIAL"; "LOAD_CLASSDEREF"; "LOAD_METHOD" ].

Definition INSTRS_WITH_STACK_EFFECT_2 : list string :=
  [ "DUP_TOP_TWO"; "WITH_CLEANUP_START" ].

Definition INSTRS_WITH_STACK_EFFECT_NEG_1 : list string :=
  [ "POP_TOP"; "BINARY_MATRIX_MULTIPLY"; "INPLACE_MATRIX_MULTIPLY";
    "BINARY_POWER"; "BINARY_MULTIPLY"; "BINARY_MODULO"; "BINARY_ADD";
    "BINARY_SUBTRACT"; "BINARY_SUBSCR"; "BINARY_FLOOR_DIVIDE";
    "BINARY_TRUE_DIVIDE"; "INPLACE_FLOOR_DIVIDE"; "INPLACE_TRUE_DIVIDE";
    "INPLACE_ADD"; "INPLACE_SUBTRACT"; "INPLACE_MULTIPLY"; "INPLACE_MODULO";
    "BINARY_LSHIFT"; "BINARY_RSHIFT"; "BINARY_AND"; "BINARY_XOR";
    "BINARY_OR"; "INPLACE_POWER"; "PRINT_EXPR"; "YIELD_FROM";
    "INPLACE_LSHIFT"; "INPLACE_RSHIFT"; "INPLACE_AND"; "INPLACE_XOR";
    "INPLACE_OR"; "RETURN_VALUE"; "IMPORT_STAR"; "STORE_NAME"; "DELETE_ATTR";
    "STORE_GLOBAL"; "IMPORT_NAME"; "POP_JUMP_IF_FALSE"; "POP_JUMP_IF_TRUE";
    "STORE_FAST"; "STORE_DEREF"; "LIST_APPEND"; "SET_ADD";
    "LOAD_METHOD_SUPER" ].

Definition INSTRS_WITH_STACK_EFFECT_NEG_2 : list string :=
  [ "DELETE_SUBSCR"; "STORE_ATTR"; "MAP_ADD"; "LOAD_ATTR_SUPER" ].

Definition INSTRS_WITH_STACK_EFFECT_NEG_3 : list string :=
  [ "STORE_SUBSCR"; "WITH_CLEANUP_FINISH"; "POP_EXCEPT" ].

Definition INSTRS_WITH_OPARG_AFFECTING_STACK : list string :=
  [ "MAKE_FUNCTION"; "CALL_FUNCTION"; "BUILD_MAP"; "BUILD_MAP_UNPACK";
    "BUILD_MAP_UNPACK_WITH_CALL"; "BUILD_CONST_KEY_MAP"; "UNPACK_SEQUENCE";
    "UNPACK_EX"; "BUILD_TUPLE"; "BUILD_LIST"; "BUILD_SET"; "BUILD_STRING";
    "BUILD_LIST_UNPACK"; "BUILD_TUPLE_UNPACK";
    "BUILD_TUPLE_UNPACK_WITH_CALL"; "BUILD_SET_UNPACK"; "CALL_FUNCTION_KW";
    "CALL_FUNCTION_EX"; "CALL_METHOD"; "RAISE_VARARGS" ].

End Fuzzer.

(** the tuple [stack_depth_sets] of [randomize_opcode] *)
Definition stack_depth_sets : list (list string) :=
  [ Fuzzer.INSTRS_WITH_STACK_EFFECT_0;
    Fuzzer.INSTRS_WITH_STACK_EFFECT_1;
    Fuzzer.INSTRS_WITH_STACK_EFFECT_2;
    Fuzzer.INSTRS_WITH_STACK_EFFECT_NEG_1;
    Fuzzer.INSTRS_WITH_STACK_EFFECT_NEG_2;
    Fuzzer.INSTRS_WITH_STACK_EFFECT_NEG_3 ].

(** [string.ascii_letters + string.digits + string.punctuation] *)
Definition alphabet : list ascii :=
  (list_ascii_of_string
     "abcdefghijklmnopqrstuvwxyzABCDEFGHIJKLMNOPQRSTUVWXYZ0123456789"
   ++ map ascii_of_nat
        [ 33; 34; 35; 36; 37; 38; 39; 40; 41; 42; 43; 44; 45; 46; 47;
          58; 59; 60; 61; 62; 63; 64;
          91; 92; 93; 94; 95; 96;
          123; 124; 125; 126 ]%nat)%list.

(** ** The random source and the resampling helpers *)

Section Randomness.
Variable entropy : nat -> Z.

(** the value that the draw at cursor [c] gives in [lower..upper] *)
Definition drawn (lower upper : Z) (c : nat) : Z :=
  lower + entropy c mod (upper - lower + 1).

(** [random.randint(lower, upper)]: both ends included; ValueError for
    an empty range *)
Definition randint (lower upper : Z) : Rand Z :=
  fun c =>
    if upper <? lower then Raise ValueError
    else Ok (drawn lower upper c, S c).

(** the element that the draw at cursor [c] selects in [seq] *)
Definition picked {A} (seq : list A) (c : nat) : option A :=
  nth_error seq (Z.to_nat (entropy c mod Z.of_nat (List.length seq))).

(** [random.choice(seq)]: IndexError for an empty sequence *)
Definition choice {A} (seq : list A) : Rand A :=
  fun c =>
    match picked seq c with
    | Some x => Ok (x, S c)
    | None => Raise IndexError
    end.

(** [random.choice(alphabet) for i in range(newlen)] *)
Fixpoint random_chars (n : nat) : Rand (list ascii) :=
  match n with
  | O => ret []
  | S n' =>
      ch <- choice alphabet ;;
      rest <- random_chars n' ;;
      ret (ch :: rest)
  end.

Fixpoint generate_random_string (fuel : nat) (original : string)
    (lower upper : Z) : Rand string :=
  match fuel with
  | O => diverge
  | S fuel' =>
      newlen <- randint lower upper ;;
      chars <- random_chars (Z.to_nat newlen) ;;
      let random_str := string_of_list_ascii chars in
      if String.eqb random_str original
      then generate_random_string fuel' original lower upper
      else ret random_str
  end.

Fixpoint generate_random_integer (fuel : nat) (original lower upper : Z)
    : Rand Z :=
  match fuel with
  | O => diverge
  | S fuel' =>
      random_int <- randint lower upper ;;
      if random_int =? original
      then generate_random_integer fuel' original lower upper
      else ret random_int
  end.

(** [tuple(options)] lists the set in some order; the order of the set
    literal is taken here, and nothing below depends on it. *)
Fixpoint generate_random_opcode (fuel : nat) (opcode : string)
    (options : list string) : Rand string :=
  match fuel with
  | O => diverge
  | S fuel' =>
      new_op <- choice options ;;
      if String.eqb new_op opcode
      then generate_random_opcode fuel' opcode options
      else ret new_op
  end.

(** the loop [for stack_depth_set in stack_depth_sets] of
    [randomize_opcode], with its final [return opcode] *)
Fixpoint for_stack_depth_set (fuel : nat) (opcode : string)
    (sets : list (list string)) : Rand string :=
  match sets with
  | [] => ret opcode
  | stack_depth_set :: rest =>
      if mem opcode stack_depth_set
      then generate_random_opcode fuel opcode stack_depth_set
      else for_stack_depth_set fuel opcode rest
  end.

Definition randomize_opcode (fuel : nat) (opcode : string) : Rand string :=
  if mem opcode Fuzzer.INSTRS_WITH_BRANCHES
     || mem opcode Fuzzer.INSTRS_WITH_OPARG_AFFECTING_STACK
     || String.eqb opcode "LOAD_CONST"
  then ret opcode
  else for_stack_depth_set fuel opcode stack_depth_sets.

Definition generate_random_ioparg (fuel : nat) (opcode : string)
    (ioparg : Z) : Rand Z :=
  if mem opcode Fuzzer.INSTRS_WITH_BRANCHES
     || mem opcode Fuzzer.INSTRS_WITH_OPARG_AFFECTING_STACK
     || mem opcode Fuzzer.INSTRS_WITH_OPARG_IN_CONSTS
  then ret ioparg
  else if String.eqb opcode "COMPARE_OP"
  then generate_random_integer fuel ioparg 0 CMP_OP_LENGTH
  else generate_random_integer fuel ioparg OPARG_LOWER_BOUND OPARG_UPPER_BOUND.

End Randomness.

(** ** The operand randomizer *)

Section Randomizer.
Variable entropy : nat -> Z.

(** [tuple(f(i) for i in var)] in the monad of the random source *)
Definition for_each {A B} (f : A -> Rand B) : list A -> Rand (list B) :=
  fix go (l : list A) : Rand (list B) :=
    match l with
    | [] => ret []
    | x :: l' =>
        y <- f x ;;
        ys <- go l' ;;
        ret (y :: ys)
    end.

(** [frozenset(...)] takes the elements in the order in which they come
    and leaves out an element that the set holds already: of elements
    that are [==] the first one stays. [seen] is the set so far. *)
Fixpoint add_each (seen l : list PyVal) : list PyVal :=
  match l with
  | [] => seen
  | x :: l' =>
      if existsb (fun y => py_eq y x) seen
      then add_each seen l'
      else add_each (seen ++ [x]) l'
  end.

(** the elements of [frozenset(l)] *)
Definition dedupe (l : list PyVal) : list PyVal := add_each [] l.

(** [isinstance(var, int)] holds of a bool as well, which compares as
    the integer 0 or 1. *)
Fixpoint randomize_variable (fuel : nat) (var : PyVal) {struct var}
    : Rand PyVal :=
  match var with
  | VStr s =>
      r <- generate_random_string entropy fuel s
             STR_LEN_LOWER_BOUND STR_LEN_UPPER_BOUND ;;
      ret (VStr r)
  | VInt z =>
      r <- generate_random_integer entropy fuel z
             INT_LOWER_BOUND INT_UPPER_BOUND ;;
      ret (VInt r)
  | VBool b =>
      r <- generate_random_integer entropy fuel (Z.b2z b)
             INT_LOWER_BOUND INT_UPPER_BOUND ;;
      ret (VInt r)
  | VTuple items =>
      rs <- for_each (randomize_variable fuel) items ;;
      ret (VTuple rs)
  | VFrozenset items =>
      rs <- for_each (randomize_variable fuel) items ;;
      ret (VFrozenset (dedupe rs))
  | _ => ret var
  end.

End Randomizer.

(** ** Constant keys *)

(** the float 1.0 of binary64 *)
Definition float_one (negative : bool) : spec_float :=
  S754_finite negative 4503599627370496 (-52).

(** Modelled from the spec: [pyassem.sign], by which the key of a float
    or complex value tells "the sign of zero (since 0.0 and -0.0 are
    value-equal but must occupy distinct slots)": 1.0 carrying the sign of
    its argument, 1.0 for a NaN. *)
Definition sign (a : spec_float) : spec_float :=
  match a with
  | S754_zero s => float_one s
  | S754_infinity s => float_one s
  | S754_nan => float_one false
  | S754_finite s _ _ => float_one s
  end.

Fixpoint get_const_key (value : PyVal) : PyVal :=
  match value with
  | VFloat f => VTuple [VType (type_of value); value; VFloat (sign f)]
  | VComplex re im =>
      VTuple [VType (type_of value); value; VFloat (sign re); VFloat (sign im)]
  | VTuple items | VFrozenset items =>
      VTuple [VType (type_of value); value; VTuple (map get_const_key items)]
  | _ => VTuple [VType (type_of value); value]
  end.

(** ** Instructions, the flow graph and the fuzzer's state *)

Record Instruction : Type := mkInstruction {
  opname : string;
  oparg : PyVal;
  ioparg : Z
}.

(** The tables of a compiled unit that the fuzzer mutates. *)
Record Tables : Type := mkTables {
  consts : dict Z;
  names : IndexedSet;
  varnames : IndexedSet;
  freevars : IndexedSet;
  cellvars : IndexedSet
}.

(** What the fuzzer reads and writes of [self.graph]: the flag, the
    tables, the table [closure] and the instructions of the current
    block. *)
Record Graph : Type := mkGraph {
  do_not_emit_bytecode : bool;
  tables : Tables;
  closure : IndexedSet;
  current : list Instruction
}.

Record FuzzerState : Type := mkFuzzer {
  graph : Graph;
  oparg_randomizations : dict PyVal
}.

Definition set_consts (d : dict Z) (t : Tables) : Tables :=
  mkTables d (names t) (varnames t) (freevars t) (cellvars t).
Definition set_names (s : IndexedSet) (t : Tables) : Tables :=
  mkTables (consts t) s (varnames t) (freevars t) (cellvars t).
Definition set_varnames (s : IndexedSet) (t : Tables) : Tables :=
  mkTables (consts t) (names t) s (freevars t) (cellvars t).
Definition set_freevars (s : IndexedSet) (t : Tables) : Tables :=
  mkTables (consts t) (names t) (varnames t) s (cellvars t).
Definition set_cellvars (s : IndexedSet) (t : Tables) : Tables :=
  mkTables (consts t) (names t) (varnames t) (freevars t) s.

(** [self.graph.current.emit(instr)] with the tables as they are now *)
Definition emit_instr (instr : Instruction) (t : Tables) (g : Graph) : Graph :=
  mkGraph (do_not_emit_bytecode g) t (closure g) (current g ++ [instr])%list.

(** ** Table operations *)

Definition lift {A} (r : Res A) : Rand A :=
  fun c =>
    match r with
    | Ok a => Ok (a, c)
    | Raise e => Raise e
    | OutOfFuel => OutOfFuel
    end.

Definition res_bind {A B} (r : Res A) (k : A -> Res B) : Res B :=
  match r with
  | Ok a => k a
  | Raise e => Raise e
  | OutOfFuel => OutOfFuel
  end.

Definition replace_closure_var (name randomized_name : PyVal) (ioparg : Z)
    (freevars cellvars : IndexedSet) : Res (Z * IndexedSet * IndexedSet) :=
  if iset_contains name freevars then
    res_bind (iset_del name freevars) (fun freevars' =>
      let (idx, freevars'') := get_index randomized_name freevars' in
      Ok (idx, freevars'', cellvars))
  else
    res_bind (iset_del name cellvars) (fun cellvars' =>
      let (idx, cellvars'') := get_index randomized_name cellvars' in
      Ok (idx, freevars, cellvars'')).

Definition replace_name_var (name randomized_name : PyVal)
    (location : IndexedSet) : Z * IndexedSet :=
  let location' :=
    if iset_contains name location
    then mkIndexedSet (dict_remove name (keys location))
    else location in
  get_index randomized_name location'.

Definition replace_const_var (old_key new_key : PyVal) (consts : dict Z)
    : Res (Z * dict Z) :=
  match dict_get old_key consts with
  | None => Raise KeyError
  | Some oparg_index =>
      res_bind (dict_del old_key consts) (fun consts' =>
        Ok (oparg_index, dict_set new_key oparg_index consts'))
  end.

(** ** The feasibility guard and the substitution engine *)

Definition can_replace_oparg (opcode : string) (consts : dict Z)
    (names varnames closure : IndexedSet) : bool :=
  if mem opcode Fuzzer.INSTRS_WITH_OPARG_IN_CONSTS then 1 <? dict_len consts
  else if mem opcode Fuzzer.INSTRS_WITH_OPARG_IN_NAMES then 1 <? iset_len names
  else if mem opcode Fuzzer.INSTRS_WITH_OPARG_IN_VARNAMES
  then 1 <? iset_len varnames
  else if mem opcode Fuzzer.INSTRS_WITH_OPARG_IN_CLOSURE
  then 1 <? iset_len closure
  else true.

(** the first half of [generate_oparg_for_randomized_opcode]: delete the
    original oparg *)
Definition delete_original_oparg (original_opcode : string) (oparg : PyVal)
    (t : Tables) : Res Tables :=
  if mem original_opcode Fuzzer.INSTRS_WITH_OPARG_IN_CONSTS then
    res_bind (dict_del (get_const_key oparg) (consts t))
      (fun d => Ok (set_consts d t))
  else if mem original_opcode Fuzzer.INSTRS_WITH_OPARG_IN_NAMES then
    res_bind (iset_del oparg (names t)) (fun s => Ok (set_names s t))
  else if mem original_opcode Fuzzer.INSTRS_WITH_OPARG_IN_VARNAMES then
    res_bind (iset_del oparg (varnames t)) (fun s => Ok (set_varnames s t))
  else if mem original_opcode Fuzzer.INSTRS_WITH_OPARG_IN_CLOSURE then
    if iset_contains oparg (freevars t)
    then res_bind (iset_del oparg (freevars t))
           (fun s => Ok (set_freevars s t))
    else res_bind (iset_del oparg (cellvars t))
           (fun s => Ok (set_cellvars s t))
  else Ok t.

Section Substitution.
Variable entropy : nat -> Z.

(** the second half: a new oparg that corresponds with the new
    instruction *)
Definition insert_new_oparg (fuel : nat) (randomized_opcode : string)
    (oparg : PyVal) (t : Tables) : Rand (PyVal * Tables) :=
  if mem randomized_opcode Fuzzer.INSTRS_WITH_OPARG_IN_CONSTS then
    new_oparg <- randomize_variable entropy fuel oparg ;;
    ret (new_oparg,
         set_consts
           (dict_set (get_const_key new_oparg) (dict_len (consts t))
              (consts t)) t)
  else if mem randomized_opcode Fuzzer.INSTRS_WITH_OPARG_IN_NAMES then
    new_oparg <- randomize_variable entropy fuel (VStr "") ;;
    ret (new_oparg, set_names (snd (get_index new_oparg (names t))) t)
  else if mem randomized_opcode Fuzzer.INSTRS_WITH_OPARG_IN_VARNAMES then
    new_oparg <- randomize_variable entropy fuel (VStr "") ;;
    ret (new_oparg, set_varnames (snd (get_index new_oparg (varnames t))) t)
  else if mem randomized_opcode Fuzzer.INSTRS_WITH_OPARG_IN_CLOSURE then
    new_oparg <- randomize_variable entropy fuel (VStr "") ;;
    ret (new_oparg, set_freevars (snd (get_index new_oparg (freevars t))) t)
  else
    r <- generate_random_integer entropy fuel (-1)
           OPARG_LOWER_BOUND OPARG_UPPER_BOUND ;;
    ret (VInt r, t).

Definition generate_oparg_for_randomized_opcode (fuel : nat)
    (original_opcode randomized_opcode : string) (oparg : PyVal)
    (t : Tables) : Rand (PyVal * Tables) :=
  t' <- lift (delete_original_oparg original_opcode oparg t) ;;
  insert_new_oparg fuel randomized_opcode oparg t'.

(** ** [Fuzzer.randomize_oparg] *)

(** The method [self.graph.get_const_key] is the one of pyassem, of which
    the function [get_const_key] of this module is the copy "modified to
    possess no state"; that function stands for both. *)

(** the lookup in the mutation record, or a fresh randomization that is
    then recorded *)
Definition randomized_for (fuel : nat) (oparg : PyVal)
    (record : dict PyVal) : Rand (PyVal * dict PyVal) :=
  match dict_get oparg record with
  | Some randomized_oparg => ret (randomized_oparg, record)
  | None =>
      randomized_oparg <- randomize_variable entropy fuel oparg ;;
      ret (randomized_oparg, dict_set oparg randomized_oparg record)
  end.

Definition randomize_oparg (fuel : nat) (opcode : string) (oparg : PyVal)
    (ioparg : Z) (self : FuzzerState) : Rand FuzzerState :=
  let g := graph self in
  let t := tables g in
  if do_not_emit_bytecode g then ret self
  else
    rr <- randomized_for fuel oparg (oparg_randomizations self) ;;
    let (randomized_oparg, record) := rr in
    if mem opcode Fuzzer.INSTRS_WITH_OPARG_IN_NAMES then
      let (ioparg, s) := replace_name_var oparg randomized_oparg (names t) in
      ret (mkFuzzer
             (emit_instr (mkInstruction opcode randomized_oparg ioparg)
                (set_names s t) g) record)
    else if mem opcode Fuzzer.INSTRS_WITH_OPARG_IN_VARNAMES then
      let (ioparg, s) :=
        replace_name_var oparg randomized_oparg (varnames t) in
      ret (mkFuzzer
             (emit_instr (mkInstruction opcode randomized_oparg ioparg)
                (set_varnames s t) g) record)
    else if mem opcode Fuzzer.INSTRS_WITH_OPARG_IN_CONSTS
            && negb (String.eqb opcode "LOAD_CONST") then
      r <- lift (replace_const_var (get_const_key oparg)
                   (get_const_key randomized_oparg) (consts t)) ;;
      let (ioparg, d) := r : Z * dict Z in
      ret (mkFuzzer
             (emit_instr (mkInstruction opcode randomized_oparg ioparg)
                (set_consts d t) g) record)
    else if mem opcode Fuzzer.INSTRS_WITH_OPARG_IN_CLOSURE then
      r <- lift (replace_closure_var oparg randomized_oparg ioparg
                   (freevars t) (cellvars t)) ;;
      let '(ioparg, fv, cv) := r : Z * IndexedSet * IndexedSet in
      ret (mkFuzzer
             (emit_instr (mkInstruction opcode randomized_oparg ioparg)
                (set_cellvars cv (set_freevars fv t)) g) record)
    else
      ioparg <- generate_random_ioparg entropy fuel opcode ioparg ;;
      ret (mkFuzzer (emit_instr (mkInstruction opcode oparg ioparg) t g)
             record).

End Substitution.

(** ** The driver *)

Inductive FuzzerReturnTypes : Type :=
| SYNTAX_ERROR
| ERROR_CAUGHT_BY_JIT
| VERIFICATION_ERROR
| SUCCESS.

(** [FuzzerReturnTypes.X.value] *)
Definition value (r : FuzzerReturnTypes) : Z :=
  match r with
  | SYNTAX_ERROR => 0
  | ERROR_CAUGHT_BY_JIT => 1
  | VERIFICATION_ERROR => 2
  | SUCCESS => 3
  end.

Section Driver.
(** code objects and function objects of the interpreter *)
Variables Code Func : Type.
(** [textwrap.indent] *)
Variable indent : string -> string -> string.
(** [compile(text, "", "exec", compiler=Fuzzer)] *)
Variable compile : string -> Res Code.
(** [Verifier.validate_code] *)
Variable validate_code : Code -> Res unit.
(** [types.FunctionType(code.co_consts[0], {})] *)
Variable FunctionType : Code -> Res Func.
(** the module [cinderjit] when it could be imported, with its
    [force_compile] *)
Variable cinderjit : option (Func -> Res unit).

(** the two [except] clauses of the outer [try]; [code] is bound only
    once [compile] has returned *)
Definition handle (code : option Code) (e : Exn)
    : Res (option Code * FuzzerReturnTypes) :=
  match e with
  | SyntaxError => Ok (None, SYNTAX_ERROR)
  | VerificationError =>
      match code with
      | Some c => Ok (Some c, VERIFICATION_ERROR)
      | None => Raise UnboundLocalError
      end
  | _ => Raise e
  end.

(** the text that is compiled: the code, indented, under the header of a
    function *)
Definition wrap (code_str : string) : string :=
  ("def wrapper_function():" ++ String (ascii_of_nat 10) EmptyString
     ++ indent code_str "  ")%string.

Definition fuzzer_compile (code_str : string)
    : Res (option Code * FuzzerReturnTypes) :=
  let wrapped_code_str := wrap code_str in
  match compile wrapped_code_str with
  | Raise e => handle None e
  | OutOfFuel => OutOfFuel
  | Ok code =>
      match validate_code code with
      | Raise e => handle (Some code) e
      | OutOfFuel => OutOfFuel
      | Ok _ =>
          match FunctionType code with
          | Raise e => handle (Some code) e
          | OutOfFuel => OutOfFuel
          | Ok func =>
              match cinderjit with
              | Some force_compile =>
                  match force_compile func with
                  | Raise RuntimeError => Ok (Some code, ERROR_CAUGHT_BY_JIT)
                  | Raise e => handle (Some code) e
                  | OutOfFuel => OutOfFuel
                  | Ok _ => Ok (Some code, SUCCESS)
                  end
              | None => Ok (Some code, SUCCESS)
              end
          end
      end
  end.

End Driver.

(** ** [Fuzzer.emit] *)

(** The flow graph as [emit] sees it: the part that the fuzzer works on,
    the line number of the first instruction (0 while there is none) and
    the branch targets of the instructions of the current block, each
    with the position of its instruction. *)
Record FlowGraph : Type := mkFlowGraph {
  base : Graph;
  first_inst_lineno : Z;
  targets : list (nat * PyVal)
}.

(** The code generator: the flow graph and the mutation record. *)
Record Emitter : Type := mkEmitter {
  flow : FlowGraph;
  record : dict PyVal
}.

Definition with_base (g : Graph) (fg : FlowGraph) : FlowGraph :=
  mkFlowGraph g (first_inst_lineno fg) (targets fg).

Definition with_tables (t : Tables) (fg : FlowGraph) : FlowGraph :=
  with_base
    (mkGraph (do_not_emit_bytecode (base fg)) t (closure (base fg))
       (current (base fg))) fg.

(** [self.graph.current.emit(pyassem.Instruction(opcode, 0, 0,
    target=oparg))] *)
Definition emit_jump (opcode : string) (target : PyVal) (fg : FlowGraph)
    : FlowGraph :=
  mkFlowGraph
    (emit_instr (mkInstruction opcode (VInt 0) 0) (tables (base fg)) (base fg))
    (first_inst_lineno fg)
    (targets fg ++ [(List.length (current (base fg)), target)])%list.

(** the last statement of [emit]: the first [SET_LINENO] gives the graph
    its first line number *)
Definition set_first_inst_lineno (opcode : string) (ioparg : Z)
    (fg : FlowGraph) : FlowGraph :=
  if String.eqb opcode "SET_LINENO" && (first_inst_lineno fg =? 0)
  then mkFlowGraph (base fg) ioparg (targets fg)
  else fg.

Section Emit.
Variable entropy : nat -> Z.
(** of pyassem: [self.graph.maybeEmitSetLineno()] *)
Variable maybeEmitSetLineno : FlowGraph -> FlowGraph.
(** of pyassem: [isinstance(oparg, pyassem.Block)] *)
Variable is_block : PyVal -> bool.
(** of pyassem: [self.graph.current.addOutEdge(oparg)] *)
Variable addOutEdge : PyVal -> FlowGraph -> FlowGraph.
(** of pyassem: [self.graph.convertArg(opcode, oparg)], with the graph as
    the conversion leaves it *)
Variable convertArg : string -> PyVal -> FlowGraph -> Res (Z * FlowGraph).

(** the branch of [emit] that substitutes the opcode *)
Definition emit_substituted (fuel : nat) (opcode randomized_opcode : string)
    (oparg : PyVal) (fg : FlowGraph) (rec : dict PyVal) : Rand Emitter :=
  g <- generate_oparg_for_randomized_opcode entropy fuel opcode
         randomized_opcode oparg (tables (base fg)) ;;
  let (new_oparg, t) := g : PyVal * Tables in
  r <- lift (convertArg randomized_opcode new_oparg (with_tables t fg)) ;;
  let (ioparg, fg') := r : Z * FlowGraph in
  ret (mkEmitter
         (set_first_inst_lineno opcode ioparg
            (with_base
               (emit_instr (mkInstruction randomized_opcode new_oparg ioparg)
                  (tables (base fg')) (base fg')) fg')) rec).

(** the branch of [emit] that randomizes the operand *)
Definition emit_randomized (fuel : nat) (opcode : string) (oparg : PyVal)
    (ioparg : Z) (fg : FlowGraph) (rec : dict PyVal) : Rand Emitter :=
  f <- randomize_oparg entropy fuel opcode oparg ioparg
         (mkFuzzer (base fg) rec) ;;
  ret (mkEmitter
         (set_first_inst_lineno opcode ioparg (with_base (graph f) fg))
         (oparg_randomizations f)).

Definition emit (fuel : nat) (opcode : string) (oparg : PyVal)
    (self : Emitter) : Rand Emitter :=
  let fg := maybeEmitSetLineno (flow self) in
  if negb (String.eqb opcode "SET_LINENO") && is_block oparg then
    if negb (do_not_emit_bytecode (base fg))
    then ret (mkEmitter (emit_jump opcode oparg (addOutEdge oparg fg))
                (record self))
    else ret (mkEmitter fg (record self))
  else
    r <- lift (convertArg opcode oparg fg) ;;
    let (ioparg, fg1) := r : Z * FlowGraph in
    randomized_opcode <- randomize_opcode entropy fuel opcode ;;
    chance <- randint entropy 1 100 ;;
    if (chance <=? INSTR_RANDOMIZATION_CHANCE)
       && negb (String.eqb randomized_opcode opcode)
       && can_replace_oparg opcode (consts (tables (base fg1)))
            (names (tables (base fg1))) (varnames (tables (base fg1)))
            (closure (base fg1))
    then emit_substituted fuel opcode randomized_opcode oparg fg1 (record self)
    else emit_randomized fuel opcode oparg ioparg fg1 (record self).

End Emit.

(** ** [print_code_object] *)

(** A code object: what [print_code_object] reads of it. A constant is a
    value or another code object. *)
Inductive CodeType : Type :=
  mkCode (co_code : list Z) (co_consts : list (PyVal + CodeType))
    (co_names co_varnames co_cellvars co_freevars : list string).

Definition co_consts_of (code : CodeType) : list (PyVal + CodeType) :=
  match code with mkCode _ consts _ _ _ _ => consts end.

(** The lines that are printed, each with the value that its f-string
    shows; [PrintEmpty] is a line with nothing on it. *)
Inductive Printed : Type :=
| PrintLevel (level : nat)
| PrintBytecode (co_code : list Z)
| PrintConsts (co_consts : list (PyVal + CodeType))
| PrintNames (co_names : list string)
| PrintVarnames (co_varnames : list string)
| PrintCellvars (co_cellvars : list string)
| PrintFreevars (co_freevars : list string)
| PrintEmpty.

(** the seven calls of [print] for one code object. The f-string of the
    last one ends in a line break, to which [print] adds its own: the
    line of the free variables is followed by an empty line, which makes
    eight lines. *)
Definition print_one (code_obj : CodeType) (level : nat) : list Printed :=
  match code_obj with
  | mkCode code consts names varnames cellvars freevars =>
      [ PrintLevel level; PrintBytecode code; PrintConsts consts;
        PrintNames names; PrintVarnames varnames; PrintCellvars cellvars;
        PrintFreevars freevars; PrintEmpty ]
  end.

(** the loop [for i in code_obj.co_consts]; the stack has its top
    first *)
Fixpoint push_code_consts (level : nat) (consts : list (PyVal + CodeType))
    (stack : list (CodeType * nat)) : list (CodeType * nat) :=
  match consts with
  | [] => stack
  | inr i :: rest => push_code_consts level rest ((i, S level) :: stack)
  | inl _ :: rest => push_code_consts level rest stack
  end.

(** the loop [while stack]: [fuel] bounds the number of its tests *)
Fixpoint print_while (fuel : nat) (stack : list (CodeType * nat))
    (out : list Printed) : option (list Printed) :=
  match fuel with
  | O => None
  | S fuel' =>
      match stack with
      | [] => Some out
      | (code_obj, level) :: stack' =>
          print_while fuel'
            (push_code_consts level (co_consts_of code_obj) stack')
            (out ++ print_one code_obj level)%list
      end
  end.

Definition print_code_object (fuel : nat) (code : CodeType)
    : option (list Printed) :=
  print_while fuel [(code, O)] [].

(** * The generator of opcode.h: Tools/scripts/generate_opcode_h.py *)

Module generate_opcode_h.

(** the characters that a Python literal writes with an escape *)
Definition newline : string := String (ascii_of_nat 10) EmptyString.
Definition double_quote : string := String (ascii_of_nat 34) EmptyString.
Definition backslash : string := String (ascii_of_nat 92) EmptyString.

(** a triple-quoted literal, line by line *)
Definition text (lines : list string) : string := String.concat newline lines.

(** [header]: the literal without the line break that [lstrip] removes *)
Definition header : string :=
  text
    [ "/* Auto-generated by Tools/scripts/generate_opcode_h.py from Lib/opcode.py */"
    ; "#ifndef Py_OPCODE_H"
    ; "#define Py_OPCODE_H"
    ; "#ifdef __cplusplus"
    ; "extern " ++ double_quote ++ "C" ++ double_quote ++ " {"
    ; "#endif"
    ; EmptyString
    ; EmptyString
    ; "    /* Instruction opcodes for compiled code */"
    ; "#define PY_OPCODES(X)" ].

Definition footer : string :=
  text
    [ EmptyString
    ; EmptyString
    ; "#define OP(op, value) static const int op = value;"
    ; "PY_OPCODES(OP)"
    ; "#undef OP"
    ; EmptyString
    ; "/* EXCEPT_HANDLER is a special, implicit block type which is created when"
    ; "   entering an except handler. It is not an opcode but we define it here"
    ; "   as we want it to be available to both frameobject.c and ceval.c, while"
    ; "   remaining private.*/"
    ; "#define EXCEPT_HANDLER 257"
    ; EmptyString
    ; EmptyString
    ; "enum cmp_op {PyCmp_LT=Py_LT, PyCmp_LE=Py_LE, PyCmp_EQ=Py_EQ, PyCmp_NE=Py_NE,"
    ; "                PyCmp_GT=Py_GT, PyCmp_GE=Py_GE, PyCmp_IN, PyCmp_NOT_IN,"
    ; "                PyCmp_IS, PyCmp_IS_NOT, PyCmp_EXC_MATCH, PyCmp_BAD};"
    ; EmptyString
    ; "#define HAS_ARG(op) ((op) >= HAVE_ARGUMENT)"
    ; EmptyString
    ; "#ifdef __cplusplus"
    ; "}"
    ; "#endif"
    ; "#endif /* !Py_OPCODE_H */"
    ; EmptyString ].

(** [len(s)] *)
Definition len (s : string) : Z := Z.of_nat (String.length s).

(** [n] blanks *)
Fixpoint blanks (n : nat) : string :=
  match n with
  | O => EmptyString
  | S n' => String " " (blanks n')
  end.

(** ["%d" % n] *)
Definition decimal (n : Z) : string := NilZero.string_of_int (Z.to_int n).

(** ["%*d" % (width, n)]: the number is never cut; it is moved to the right
    of a field of [width] characters, and to the left of one of [-width]
    characters when the width is negative *)
Definition format_star_d (width n : Z) : string :=
  let digits := decimal n in
  let fill := blanks (Z.to_nat (Z.abs width) - String.length digits) in
  if width <? 0 then digits ++ fill else fill ++ digits.

(** the namespace that [exec] fills from Lib/opcode.py, as far as [main]
    reads it *)
Record Opcode : Type := mkOpcode
  { opmap : dict Z
  ; opname : list string
  ; HAVE_ARGUMENT : Z }.

Definition max_op_len (opcode : Opcode) : Z :=
  fold_left (fun m elem => Z.max m (len elem)) (opname opcode) 0 + 3.

(** [write_line]: the text of its one [fobj.write] *)
Definition write_line (opcode : Opcode) (opname : string) (opnum : Z)
    : string :=
  let padding := max_op_len opcode - len opname in
  " " ++ backslash ++ newline ++ "  X(" ++ opname ++ ", "
  ++ format_star_d padding opnum ++ ")".

(** the writes of one turn of the loop over [opcode['opname']] *)
Definition write_entries (opcode : Opcode) (name : string) : list string :=
  (match dict_get (VStr name) (opmap opcode) with
   | Some opnum => [write_line opcode name opnum]
   | None => []
   end
   ++ if String.eqb name "POP_EXCEPT"
      then [write_line opcode "HAVE_ARGUMENT" (HAVE_ARGUMENT opcode)]
      else [])%list.

(** [main], after the namespace has been read: the texts written to
    [outfile], one for each [fobj.write] and in their order, and the line
    that is printed *)
Definition main (opcode : Opcode) (opcode_py outfile : string)
    : list string * string :=
  ((header :: flat_map (write_entries opcode) (opname opcode) ++ [footer])%list,
   outfile ++ " regenerated from " ++ opcode_py).
End generate_opcode_h.

(** ** Vocabulary of the properties *)

(** The loop shared by the three resampling helpers: draw with [attempt],
    draw again while the draw is the [same] as the original. *)
Fixpoint resample {A} (attempt : Rand A) (same : A -> bool) (fuel : nat)
    : Rand A :=
  match fuel with
  | O => diverge
  | S fuel' =>
      x <- attempt ;;
      if same x then resample attempt same fuel' else ret x
  end.

(** [rejected attempt same c n c']: from cursor [c] the next [n] attempts
    all give a value that is the [same] as the original, and leave the
    cursor at [c']. *)
Inductive rejected {A} (attempt : Rand A) (same : A -> bool)
    : nat -> nat -> nat -> Prop :=
| rejected_none c : rejected attempt same c O c
| rejected_more c x c1 n c2 :
    attempt c = Ok (x, c1) -> same x = true ->
    rejected attempt same c1 n c2 ->
    rejected attempt same c (S n) c2.


(** one attempt of [generate_random_string]: a length, then that many
    characters *)
Definition attempt_string (entropy : nat -> Z) (lower upper : Z)
    : Rand string :=
  newlen <- randint entropy lower upper ;;
  chars <- random_chars entropy (Z.to_nat newlen) ;;
  ret (string_of_list_ascii chars).

Definition disjointb (a b : list string) : bool :=
  forallb (fun x => negb (mem x b)) a.

Fixpoint pairwise_disjointb (l : list (list string)) : bool :=
  match l with
  | [] => true
  | a :: rest => forallb (disjointb a) rest && pairwise_disjointb rest
  end.

(** the opcodes that are never substituted: control transfers and the
    load of a literal constant *)
Definition exempt : list string :=
  (Fuzzer.INSTRS_WITH_BRANCHES ++ ["LOAD_CONST"])%list.

(** the six fixed classes with the class of the variable effect *)
Definition effect_classes : list (list string) :=
  (stack_depth_sets ++ [Fuzzer.INSTRS_WITH_OPARG_AFFECTING_STACK])%list.

(** all the classes of the stack-effect classification *)
Definition classes : list (list string) :=
  (effect_classes ++ [exempt])%list.

(** the class in which [randomize_opcode] looks for a replacement *)
Definition class_of (opcode : string) : list string :=
  match find (mem opcode) stack_depth_sets with
  | Some s => s
  | None => []
  end.

Definition eligible (opcode : string) : bool :=
  negb (mem opcode Fuzzer.INSTRS_WITH_BRANCHES)
  && negb (mem opcode Fuzzer.INSTRS_WITH_OPARG_AFFECTING_STACK)
  && negb (String.eqb opcode "LOAD_CONST")
  && existsb (mem opcode) stack_depth_sets.

(** membership in each of the six fixed classes is the same *)
Definition same_class (a b : string) : Prop :=
  forall s, In s stack_depth_sets -> mem a s = mem b s.

(** [zero_sign_variant v w]: [v] and [w] are two float zeros of opposite
    signs, or two complex zeros whose real or imaginary parts have
    opposite signs, or two tuples or two frozensets whose elements are
    equal one by one and which have such a pair at some place, at any
    depth. *)
Inductive zero_sign_variant : PyVal -> PyVal -> Prop :=
| zsv_zero s :
    zero_sign_variant (VFloat (S754_zero s)) (VFloat (S754_zero (negb s)))
| zsv_complex s t s' t' :
    Bool.eqb s s' && Bool.eqb t t' = false ->
    zero_sign_variant (VComplex (S754_zero s) (S754_zero t))
      (VComplex (S754_zero s') (S754_zero t'))
| zsv_tuple l l' :
    zero_sign_variants l l' -> zero_sign_variant (VTuple l) (VTuple l')
| zsv_frozenset l l' :
    zero_sign_variants l l' ->
    zero_sign_variant (VFrozenset l) (VFrozenset l')
with zero_sign_variants : list PyVal -> list PyVal -> Prop :=
| zsv_here x y l l' :
    zero_sign_variant x y ->
    Forall2 (fun a b => py_eq a b = true) l l' ->
    zero_sign_variants (x :: l) (y :: l')
| zsv_there a b l l' :
    py_eq a b = true ->
    zero_sign_variants l l' ->
    zero_sign_variants (a :: l) (b :: l').

(** element-wise comparison of two sequences *)
Fixpoint all2 {A B} (f : A -> B -> bool) (xs : list A) (ys : list B) : bool :=
  match xs, ys with
  | [], [] => true
  | x :: xs', y :: ys' => f x y && all2 f xs' ys'
  | _, _ => false
  end.

(** [raises_at_most r e]: the call with result [r] returned, or raised
    [e]. *)
Definition raises_at_most {A} (r : Res A) (e : Exn) : Prop :=
  match r with
  | Ok _ => True
  | Raise e' => e' = e
  | OutOfFuel => False
  end.

(** [returns r]: the call with result [r] returned. *)
Definition returns {A} (r : Res A) : Prop :=
  match r with
  | Ok _ => True
  | _ => False
  end.

(** the table that holds the given names at the given indices *)
Definition table_of (l : list (string * Z)) : IndexedSet :=
  mkIndexedSet (map (fun p => (VStr (fst p), snd p)) l).

(** the opcodes whose operand [randomize_oparg] replaces in a table *)
Definition table_resident (opcode : string) : bool :=
  mem opcode Fuzzer.INSTRS_WITH_OPARG_IN_NAMES
  || mem opcode Fuzzer.INSTRS_WITH_OPARG_IN_VARNAMES
  || (mem opcode Fuzzer.INSTRS_WITH_OPARG_IN_CONSTS
      && negb (String.eqb opcode "LOAD_CONST"))
  || mem opcode Fuzzer.INSTRS_WITH_OPARG_IN_CLOSURE.


(** the values that [randomize_variable] has a strategy for *)
Definition randomizable (v : PyVal) : bool :=
  match v with
  | VStr _ | VInt _ | VBool _ | VTuple _ | VFrozenset _ => true
  | _ => false
  end.

(** [randomized v r]: [r] has the shape that [randomize_variable] gives a
    replacement of [v]. *)
Inductive randomized : PyVal -> PyVal -> Prop :=
| rnd_str s r :
    r <> s ->
    Z.of_nat (String.length r) <= STR_LEN_UPPER_BOUND ->
    randomized (VStr s) (VStr r)
| rnd_int z r :
    r <> z -> INT_LOWER_BOUND <= r <= INT_UPPER_BOUND ->
    randomized (VInt z) (VInt r)
| rnd_bool b r :
    r <> Z.b2z b -> INT_LOWER_BOUND <= r <= INT_UPPER_BOUND ->
    randomized (VBool b) (VInt r)
| rnd_tuple l l' :
    randomized_all l l' -> randomized (VTuple l) (VTuple l')
| rnd_frozenset l l' :
    randomized_all l l' ->
    randomized (VFrozenset l) (VFrozenset (dedupe l'))
| rnd_other v :
    randomizable v = false -> randomized v v
with randomized_all : list PyVal -> list PyVal -> Prop :=
| rnd_nil : randomized_all [] []
| rnd_cons v r l l' :
    randomized v r -> randomized_all l l' ->
    randomized_all (v :: l) (r :: l').

(** the table in which [randomize_oparg] replaces the operand of an
    opcode and the key under which it enters the replacement *)
Definition holds_replacement (opcode : string) (t : Tables) (r : PyVal)
    (j : Z) : Prop :=
  if mem opcode Fuzzer.INSTRS_WITH_OPARG_IN_NAMES
  then dict_get r (keys (names t)) = Some j
  else if mem opcode Fuzzer.INSTRS_WITH_OPARG_IN_VARNAMES
  then dict_get r (keys (varnames t)) = Some j
  else if mem opcode Fuzzer.INSTRS_WITH_OPARG_IN_CONSTS
  then dict_get (get_const_key r) (consts t) = Some j
  else dict_get r (keys (freevars t)) = Some j
       \/ dict_get r (keys (cellvars t)) = Some j.

(** What a call of [emit] that returned has done. It has passed a branch
    to a block through; or it has converted the operand and then either
    substituted the opcode, which was eligible and passed the guard, by
    another opcode of its class, or randomized the operand. *)
Definition emit_outcome (entropy : nat -> Z)
    (maybeEmitSetLineno : FlowGraph -> FlowGraph) (is_block : PyVal -> bool)
    (addOutEdge : PyVal -> FlowGraph -> FlowGraph)
    (convertArg : string -> PyVal -> FlowGraph -> Res (Z * FlowGraph))
    (fuel : nat) (opcode : string) (oparg : PyVal) (self : Emitter) (c : nat)
    (self' : Emitter) (c' : nat) : Prop :=
  let fg := maybeEmitSetLineno (flow self) in
  (negb (String.eqb opcode "SET_LINENO") && is_block oparg = true
   /\ c' = c
   /\ record self' = record self
   /\ flow self'
      = if do_not_emit_bytecode (base fg) then fg
        else emit_jump opcode oparg (addOutEdge oparg fg))
  \/ exists ioparg fg1,
       negb (String.eqb opcode "SET_LINENO") && is_block oparg = false
       /\ convertArg opcode oparg fg = Ok (ioparg, fg1)
       /\ ((exists r new t2 j fg2,
               eligible opcode = true
               /\ r <> opcode
               /\ In r (class_of opcode)
               /\ can_replace_oparg opcode (consts (tables (base fg1)))
                    (names (tables (base fg1))) (varnames (tables (base fg1)))
                    (closure (base fg1)) = true
               /\ convertArg r new (with_tables t2 fg1) = Ok (j, fg2)
               /\ record self' = record self
               /\ base (flow self')
                  = emit_instr (mkInstruction r new j) (tables (base fg2))
                      (base fg2))
            \/ (exists c0 f,
                   randomize_oparg entropy fuel opcode oparg ioparg
                     (mkFuzzer (base fg1) (record self)) c0 = Ok (f, c')
                   /\ base (flow self') = graph f
                   /\ record self' = oparg_randomizations f)).


(** the code objects of a code object: itself and those of its
    constants *)
Fixpoint code_size (code : CodeType) : nat :=
  match code with
  | mkCode _ consts _ _ _ _ =>
      S ((fix sum (cs : list (PyVal + CodeType)) : nat :=
            match cs with
            | [] => O
            | inr sub :: cs' => (code_size sub + sum cs')%nat
            | inl _ :: cs' => sum cs'
            end) consts)
  end.

(** the report of a code object at a level: its own lines, then the
    reports of the code objects among its constants, the last one first,
    one level deeper *)
Fixpoint report (level : nat) (code : CodeType) : list Printed :=
  match code with
  | mkCode _ consts _ _ _ _ =>
      (print_one code level
       ++ (fix nested (cs : list (PyVal + CodeType)) : list Printed :=
             match cs with
             | [] => []
             | inr sub :: cs' => nested cs' ++ report (S level) sub
             | inl _ :: cs' => nested cs'
             end) consts)%list
  end.

(** the sizes and the reports of the code objects among some constants *)
Fixpoint consts_size (cs : list (PyVal + CodeType)) : nat :=
  match cs with
  | [] => O
  | inr sub :: cs' => (code_size sub + consts_size cs')%nat
  | inl _ :: cs' => consts_size cs'
  end.

Fixpoint consts_report (level : nat) (cs : list (PyVal + CodeType))
    : list Printed :=
  match cs with
  | [] => []
  | inr sub :: cs' => (consts_report level cs' ++ report (S level) sub)%list
  | inl _ :: cs' => consts_report level cs'
  end.

Fixpoint stack_size (stack : list (CodeType * nat)) : nat :=
  match stack with
  | [] => O
  | (code, _) :: rest => (code_size code + stack_size rest)%nat
  end.

Fixpoint stack_report (stack : list (CodeType * nat)) : list Printed :=
  match stack with
  | [] => []
  | (code, level) :: rest => (report level code ++ stack_report rest)%list
  end.

(** ** The monad *)

Lemma bind_Ok {A B} (m : Rand A) (k : A -> Rand B) c r :
  bind m k c = Ok r ->
  exists a c1, m c = Ok (a, c1) /\ k a c1 = Ok r.
Proof.
  unfold bind. destruct (m c) as [[a c1]| |]; try discriminate.
  intros H. now exists a, c1.
Qed.

Lemma bind_eq_Ok {A B} (m : Rand A) (k : A -> Rand B) c a c1 :
  m c = Ok (a, c1) -> bind m k c = k a c1.
Proof. unfold bind. now intros ->. Qed.

Lemma mem_In opcode s : mem opcode s = true <-> In opcode s.
Proof.
  unfold mem. rewrite existsb_exists. split.
  - intros [x [Hin Heq]]. apply String.eqb_eq in Heq. now subst.
  - intros Hin. exists opcode. split; [assumption | apply String.eqb_refl].
Qed.

(** ** Resampling *)

Section Resample.
Context {A : Type} (attempt : Rand A) (same : A -> bool).

Lemma resample_returns c n c1 x c2 :
  rejected attempt same c n c1 ->
  attempt c1 = Ok (x, c2) -> same x = false ->
  forall fuel, (n < fuel)%nat -> resample attempt same fuel c = Ok (x, c2).
Proof.
  induction 1 as [c | c y c' n c1 Hy Hsame Hrej IH]; intros Hx Hfresh fuel Hlt.
  - destruct fuel as [|fuel]; [lia|]. simpl.
    rewrite (bind_eq_Ok _ _ _ _ _ Hx). now rewrite Hfresh.
  - destruct fuel as [|fuel]; [lia|]. simpl.
    rewrite (bind_eq_Ok _ _ _ _ _ Hy). rewrite Hsame.
    apply IH; [assumption | assumption | lia].
Qed.

Lemma resample_sound fuel : forall c x c2,
  resample attempt same fuel c = Ok (x, c2) ->
  same x = false /\
  exists n c1, (n < fuel)%nat /\ rejected attempt same c n c1 /\
               attempt c1 = Ok (x, c2).
Proof.
  induction fuel as [|fuel IH]; intros c x c2 H; [discriminate|].
  simpl in H. apply bind_Ok in H. destruct H as [y [c' [Hy H]]].
  destruct (same y) eqn:Hs.
  - apply IH in H. destruct H as [Hf [n [c1 [Hlt [Hrej Hx]]]]].
    split; [assumption|]. exists (S n), c1. split; [lia|]. split.
    + now apply rejected_more with (x := y) (c1 := c').
    + assumption.
  - inversion H; subst. split; [assumption|].
    exists O, c. split; [lia|]. split; [constructor | assumption].
Qed.

End Resample.

Section HelpersAsResample.
Variable entropy : nat -> Z.

Lemma generate_random_integer_resample original lower upper fuel : forall c,
  generate_random_integer entropy fuel original lower upper c
  = resample (randint entropy lower upper) (fun x => x =? original) fuel c.
Proof.
  induction fuel as [|fuel IH]; intros c; [reflexivity|].
  simpl. unfold bind. destruct (randint entropy lower upper c) as [[x c']| |];
    try reflexivity.
  destruct (x =? original); [apply IH | reflexivity].
Qed.

Lemma generate_random_opcode_resample opcode options fuel : forall c,
  generate_random_opcode entropy fuel opcode options c
  = resample (choice entropy options) (fun x => String.eqb x opcode) fuel c.
Proof.
  induction fuel as [|fuel IH]; intros c; [reflexivity|].
  simpl. unfold bind. destruct (choice entropy options c) as [[x c']| |];
    try reflexivity.
  destruct (String.eqb x opcode); [apply IH | reflexivity].
Qed.

Lemma generate_random_string_resample original lower upper fuel : forall c,
  generate_random_string entropy fuel original lower upper c
  = resample (attempt_string entropy lower upper)
      (fun x => String.eqb x original) fuel c.
Proof.
  induction fuel as [|fuel IH]; intros c; [reflexivity|].
  simpl. unfold attempt_string, bind.
  destruct (randint entropy lower upper c) as [[n c']| |]; try reflexivity.
  destruct (random_chars entropy (Z.to_nat n) c') as [[chars c'']| |];
    try reflexivity.
  unfold ret.
  destruct (String.eqb (string_of_list_ascii chars) original);
    [apply IH | reflexivity].
Qed.

Lemma randint_range lower upper c x c' :
  randint entropy lower upper c = Ok (x, c') ->
  lower <= x <= upper /\ c' = S c.
Proof.
  unfold randint, drawn. destruct (upper <? lower) eqn:E; [discriminate|].
  apply Z.ltb_ge in E. intros H. inversion H; subst. split; [|reflexivity].
  pose proof (Z.mod_pos_bound (entropy c) (upper - lower + 1)). lia.
Qed.

Lemma choice_In {A} (seq : list A) c x c' :
  choice entropy seq c = Ok (x, c') -> In x seq /\ c' = S c.
Proof.
  unfold choice, picked.
  destruct (nth_error seq _) as [y|] eqn:E; [|discriminate].
  intros H. inversion H; subst. split; [|reflexivity].
  now apply nth_error_In in E.
Qed.

Lemma generate_random_integer_range fuel original lower upper c x c' :
  generate_random_integer entropy fuel original lower upper c = Ok (x, c') ->
  x <> original /\ lower <= x <= upper.
Proof.
  rewrite generate_random_integer_resample. intros H.
  apply resample_sound in H. destruct H as [Hf [n [c1 [_ [_ Hx]]]]].
  apply Z.eqb_neq in Hf. apply randint_range in Hx. tauto.
Qed.

Lemma generate_random_opcode_In fuel opcode options c x c' :
  generate_random_opcode entropy fuel opcode options c = Ok (x, c') ->
  x <> opcode /\ In x options.
Proof.
  rewrite generate_random_opcode_resample. intros H.
  apply resample_sound in H. destruct H as [Hf [n [c1 [_ [_ Hx]]]]].
  apply String.eqb_neq in Hf. apply choice_In in Hx. tauto.
Qed.

Lemma for_stack_depth_set_find fuel opcode sets : forall c,
  for_stack_depth_set entropy fuel opcode sets c
  = match find (mem opcode) sets with
    | Some s => generate_random_opcode entropy fuel opcode s c
    | None => Ok (opcode, c)
    end.
Proof.
  induction sets as [|s sets IH]; intros c; [reflexivity|].
  simpl. destruct (mem opcode s); [reflexivity | apply IH].
Qed.

Lemma randomize_opcode_eligible fuel opcode c :
  eligible opcode = true ->
  randomize_opcode entropy fuel opcode c
  = generate_random_opcode entropy fuel opcode (class_of opcode) c
  /\ In (class_of opcode) stack_depth_sets
  /\ mem opcode (class_of opcode) = true.
Proof.
  unfold eligible, randomize_opcode, class_of. intros E.
  apply andb_prop in E. destruct E as [E E4].
  apply andb_prop in E. destruct E as [E E3].
  apply andb_prop in E. destruct E as [E1 E2].
  apply negb_true_iff in E1, E2, E3. rewrite E1, E2, E3.
  change (if false || false || false then ?x else ?y) with y.
  rewrite for_stack_depth_set_find.
  destruct (find (mem opcode) stack_depth_sets) as [s|] eqn:F.
  - apply find_some in F. tauto.
  - apply existsb_exists in E4. destruct E4 as [s [Hin Hm]].
    apply (find_none _ _ F) in Hin. congruence.
Qed.
End HelpersAsResample.

(** Two opcodes of one fixed class are in the same fixed classes: the six
    classes do not overlap. *)
Lemma fixed_classes_check :
  forallb (fun s =>
    forallb (fun a =>
      forallb (fun b =>
        forallb (fun s' => Bool.eqb (mem a s') (mem b s')) stack_depth_sets)
        s) s) stack_depth_sets = true.
Proof. vm_compute. reflexivity. Qed.

Lemma same_class_of_members s a b :
  In s stack_depth_sets -> In a s -> In b s -> same_class a b.
Proof.
  intros Hs Ha Hb s' Hs'.
  pose proof fixed_classes_check as H.
  rewrite forallb_forall in H. specialize (H s Hs).
  rewrite forallb_forall in H. specialize (H a Ha).
  rewrite forallb_forall in H. specialize (H b Hb).
  rewrite forallb_forall in H. specialize (H s' Hs').
  now apply Bool.eqb_prop in H.
Qed.

(** ** Opcode substitution keeps the stack-effect class *)

Lemma fixed_classes_have_two :
  forallb (fun s =>
    forallb (fun a => existsb (fun x => negb (String.eqb x a)) s) s)
    stack_depth_sets = true.
Proof. vm_compute. reflexivity. Qed.

Lemma class_has_another s opcode :
  In s stack_depth_sets -> In opcode s ->
  exists x, In x s /\ x <> opcode.
Proof.
  intros Hs Ho. pose proof fixed_classes_have_two as H.
  rewrite forallb_forall in H. specialize (H s Hs).
  rewrite forallb_forall in H. specialize (H opcode Ho).
  apply existsb_exists in H. destruct H as [x [Hx Hne]].
  exists x. split; [assumption|].
  apply negb_true_iff in Hne. now apply String.eqb_neq in Hne.
Qed.

(** C1. For an opcode that is eligible for substitution, the opcode that
    [randomize_opcode] returns is a member of the stack-effect class of
    the original, hence in the same fixed classes, and is not the
    original. The call does return such an opcode: the class has a member
    other than the original, and as soon as the random source picks one,
    after any number of picks of the original itself, that member is the
    result. *)
Theorem randomize_opcode_same_class (entropy : nat -> Z) (opcode : string) :
  eligible opcode = true ->
  (forall fuel c r c',
      randomize_opcode entropy fuel opcode c = Ok (r, c') ->
      r <> opcode /\ In r (class_of opcode) /\ same_class opcode r)
  /\ (forall c n c1 x c2,
         rejected (choice entropy (class_of opcode))
           (fun y => String.eqb y opcode) c n c1 ->
         choice entropy (class_of opcode) c1 = Ok (x, c2) ->
         x <> opcode ->
         forall fuel, (n < fuel)%nat ->
           randomize_opcode entropy fuel opcode c = Ok (x, c2))
  /\ (exists x, In x (class_of opcode) /\ x <> opcode).
Proof.
  intros E.
  assert (Hc : In (class_of opcode) stack_depth_sets
               /\ mem opcode (class_of opcode) = true)
    by (destruct (randomize_opcode_eligible entropy O opcode O E); tauto).
  destruct Hc as [Hs Hm]. apply mem_In in Hm.
  split; [|split].
  - intros fuel c r c' H.
    destruct (randomize_opcode_eligible entropy fuel opcode c E) as [Heq _].
    rewrite Heq in H. apply generate_random_opcode_In in H.
    destruct H as [Hne Hin]. split; [assumption|]. split; [assumption|].
    now apply same_class_of_members with (s := class_of opcode).
  - intros c n c1 x c2 Hrej Hx Hne fuel Hlt.
    destruct (randomize_opcode_eligible entropy fuel opcode c E) as [Heq _].
    rewrite Heq, generate_random_opcode_resample.
    apply resample_returns with (n := n) (c1 := c1); try assumption.
    now apply String.eqb_neq.
  - now apply class_has_another.
Qed.

(** The random source that always draws 1 replaces [ROT_TWO] by
    [ROT_THREE], of the same class. *)
Lemma randomize_opcode_same_class_witness :
  eligible "ROT_TWO" = true
  /\ randomize_opcode (fun _ => 1) 1 "ROT_TWO" 0%nat = Ok ("ROT_THREE", 1%nat)
  /\ "ROT_THREE" <> "ROT_TWO"
  /\ In "ROT_THREE" (class_of "ROT_TWO")
  /\ same_class "ROT_TWO" "ROT_THREE".
Proof.
  split; [reflexivity|]. split; [reflexivity|].
  apply (proj1 (randomize_opcode_same_class (fun _ => 1) "ROT_TWO" eq_refl)
           1%nat 0%nat "ROT_THREE" 1%nat).
  reflexivity.
Defined.

(** ** The classification of opcodes *)

Lemma replacement_check :
  forallb (fun s =>
    forallb (fun r =>
      negb (mem r Fuzzer.INSTRS_WITH_OPARG_AFFECTING_STACK)
      && negb (String.eqb r "LOAD_CONST")
      && (negb (mem r Fuzzer.INSTRS_WITH_BRANCHES)
          || mem r [ "JUMP_FORWARD"; "JUMP_ABSOLUTE"; "RETURN_VALUE";
                     "POP_JUMP_IF_FALSE"; "POP_JUMP_IF_TRUE" ])) s)
    stack_depth_sets = true.
Proof. vm_compute. reflexivity. Qed.

(** C5, as the code has it. The six fixed classes and the class of the
    variable effect are pairwise disjoint, and [LOAD_CONST] is in none of
    them. The class of branches is not disjoint from them: what it shares
    with them is [JUMP_ABSOLUTE] and [JUMP_FORWARD] (effect 0),
    [POP_JUMP_IF_FALSE], [POP_JUMP_IF_TRUE] and [RETURN_VALUE] (effect -1)
    and [RAISE_VARARGS] (variable effect), each in the class named. The
    replacement of an eligible opcode is never an opcode of variable
    effect nor [LOAD_CONST]; when it is a branch, it is one of the five
    branches of the fixed classes. *)
Theorem effect_classes_disjoint_branches_overlap :
  pairwise_disjointb effect_classes = true
  /\ forallb (fun s => negb (mem "LOAD_CONST" s)) effect_classes = true
  /\ filter (fun x => existsb (mem x) effect_classes)
       (nodup string_dec Fuzzer.INSTRS_WITH_BRANCHES)
     = [ "POP_JUMP_IF_FALSE"; "POP_JUMP_IF_TRUE"; "RETURN_VALUE";
         "RAISE_VARARGS"; "JUMP_ABSOLUTE"; "JUMP_FORWARD" ]
  /\ (filter (fun x => mem x Fuzzer.INSTRS_WITH_STACK_EFFECT_0)
        (nodup string_dec Fuzzer.INSTRS_WITH_BRANCHES)
      = [ "JUMP_ABSOLUTE"; "JUMP_FORWARD" ]
      /\ filter (fun x => mem x Fuzzer.INSTRS_WITH_STACK_EFFECT_NEG_1)
           (nodup string_dec Fuzzer.INSTRS_WITH_BRANCHES)
         = [ "POP_JUMP_IF_FALSE"; "POP_JUMP_IF_TRUE"; "RETURN_VALUE" ]
      /\ filter (fun x => mem x Fuzzer.INSTRS_WITH_OPARG_AFFECTING_STACK)
           (nodup string_dec Fuzzer.INSTRS_WITH_BRANCHES)
         = [ "RAISE_VARARGS" ])
  /\ forall entropy fuel opcode c r c',
       eligible opcode = true ->
       randomize_opcode entropy fuel opcode c = Ok (r, c') ->
       mem r Fuzzer.INSTRS_WITH_OPARG_AFFECTING_STACK = false
       /\ String.eqb r "LOAD_CONST" = false
       /\ (mem r Fuzzer.INSTRS_WITH_BRANCHES = true ->
           In r [ "JUMP_FORWARD"; "JUMP_ABSOLUTE"; "RETURN_VALUE";
                  "POP_JUMP_IF_FALSE"; "POP_JUMP_IF_TRUE" ]).
Proof.
  split; [vm_compute; reflexivity|].
  split; [vm_compute; reflexivity|].
  split; [vm_compute; reflexivity|].
  split; [repeat split; vm_compute; reflexivity|].
  intros entropy fuel opcode c r c' E H.
  destruct (randomize_opcode_eligible entropy fuel opcode c E) as [Heq [Hs _]].
  rewrite Heq in H. apply generate_random_opcode_In in H. destruct H as [_ Hr].
  pose proof replacement_check as K.
  rewrite forallb_forall in K. specialize (K _ Hs).
  rewrite forallb_forall in K. specialize (K _ Hr).
  apply andb_prop in K. destruct K as [K K3].
  apply andb_prop in K. destruct K as [K1 K2].
  apply negb_true_iff in K1, K2.
  split; [assumption|]. split; [assumption|].
  intros Hb. rewrite Hb in K3. simpl in K3. now apply mem_In.
Qed.

(** The random source that always draws 1 replaces [ROT_TWO] by
    [ROT_THREE], which is neither of variable effect nor a branch. *)
Lemma effect_classes_disjoint_branches_overlap_witness :
  eligible "ROT_TWO" = true
  /\ randomize_opcode (fun _ => 1) 1 "ROT_TWO" 0%nat = Ok ("ROT_THREE", 1%nat)
  /\ mem "ROT_THREE" Fuzzer.INSTRS_WITH_OPARG_AFFECTING_STACK = false
  /\ String.eqb "ROT_THREE" "LOAD_CONST" = false.
Proof.
  split; [reflexivity|]. split; [reflexivity|].
  pose proof (proj2 (proj2 (proj2 (proj2
                  effect_classes_disjoint_branches_overlap)))
                (fun _ => 1) 1%nat "ROT_TWO" 0%nat "ROT_THREE" 1%nat
                eq_refl eq_refl) as H.
  exact (conj (proj1 H) (proj1 (proj2 H))).
Defined.

(** C5, as the spec has it, fails: [JUMP_FORWARD] is both in the class of
    branches, which is exempt, and in the fixed class of effect 0, so the
    classes are not pairwise disjoint; and [NOP], which is eligible, is
    replaced by that branch when the random source picks it. *)
Lemma classes_not_disjoint :
  mem "JUMP_FORWARD" exempt = true
  /\ mem "JUMP_FORWARD" Fuzzer.INSTRS_WITH_STACK_EFFECT_0 = true
  /\ pairwise_disjointb classes = false
  /\ eligible "NOP" = true
  /\ randomize_opcode (fun _ => 18) 1 "NOP" 0%nat = Ok ("JUMP_FORWARD", 1%nat).
Proof. repeat split; vm_compute; reflexivity. Qed.

(** ** Termination of the resampling helpers *)













(** ** The operand of a comparison *)

Lemma generate_random_ioparg_compare_op entropy fuel ioparg c :
  generate_random_ioparg entropy fuel "COMPARE_OP" ioparg c
  = generate_random_integer entropy fuel ioparg 0 CMP_OP_LENGTH c.
Proof. reflexivity. Qed.

(** C9. The encoded operand that the randomization path gives a
    [COMPARE_OP] lies in 0..12 and not in 0..11: [random.randint] includes
    its upper end, which is [CMP_OP_LENGTH] itself, and the random source
    that draws 12 makes 12 the operand. *)
Theorem compare_op_operand_reaches_length :
  generate_random_ioparg (fun _ => 12) 1 "COMPARE_OP" 0 0%nat
  = Ok (12, 1%nat)
  /\ (12 <=? 11) = false
  /\ forall entropy fuel ioparg c x c',
       generate_random_ioparg entropy fuel "COMPARE_OP" ioparg c = Ok (x, c')
       -> 0 <= x <= CMP_OP_LENGTH.
Proof.
  split; [reflexivity|]. split; [reflexivity|].
  intros entropy fuel ioparg c x c' H.
  rewrite generate_random_ioparg_compare_op in H.
  now apply generate_random_integer_range in H.
Qed.


(** ** Constant keys and the sign of zero *)

Lemma py_eq_tuple l : forall l',
  py_eq (VTuple l) (VTuple l') = all2 py_eq l l'.
Proof.
  induction l as [|x l IH]; intros [|y l']; try reflexivity.
  simpl. f_equal. apply IH.
Qed.

Lemma all2_Forall2 l l' :
  Forall2 (fun a b => py_eq a b = true) l l' -> all2 py_eq l l' = true.
Proof.
  induction 1 as [|a b l l' Hab _ IH]; [reflexivity|].
  simpl. now rewrite Hab, IH.
Qed.

Lemma get_const_key_tuple l :
  get_const_key (VTuple l)
  = VTuple [VType TTuple; VTuple l; VTuple (map get_const_key l)].
Proof. reflexivity. Qed.

(** the keys of two tuples compare as the tuples and their lists of
    element keys do *)
Lemma py_eq_tuple_keys l l' :
  py_eq (get_const_key (VTuple l)) (get_const_key (VTuple l'))
  = py_eq (VTuple l) (VTuple l')
    && all2 py_eq (map get_const_key l) (map get_const_key l').
Proof.
  rewrite !get_const_key_tuple.
  rewrite (py_eq_tuple [VType TTuple; VTuple l; VTuple (map get_const_key l)]).
  cbn [all2]. rewrite (py_eq_tuple (map get_const_key l)).
  change (py_eq (VType TTuple) (VType TTuple)) with true.
  now rewrite andb_true_r.
Qed.

Lemma py_eq_frozenset l l' :
  py_eq (VFrozenset l) (VFrozenset l')
  = forallb (fun x => existsb (py_eq x) l') l
    && forallb (fun y => existsb (fun x => py_eq x y) l) l'.
Proof. reflexivity. Qed.

Lemma Forall2_frozenset l l' :
  Forall2 (fun a b => py_eq a b = true) l l' ->
  py_eq (VFrozenset l) (VFrozenset l') = true.
Proof.
  intros H. rewrite py_eq_frozenset. apply andb_true_intro. split.
  - induction H as [|a b l l' Hab H IH]; [reflexivity|].
    cbn [forallb existsb]. rewrite Hab. cbn [orb andb].
    rewrite forallb_forall in IH |- *. intros x Hx.
    rewrite (IH x Hx). apply orb_true_r.
  - induction H as [|a b l l' Hab H IH]; [reflexivity|].
    cbn [forallb existsb]. rewrite Hab. cbn [orb andb].
    rewrite forallb_forall in IH |- *. intros y Hy.
    rewrite (IH y Hy). apply orb_true_r.
Qed.

Lemma Forall2_all2 l l' :
  all2 py_eq l l' = true -> Forall2 (fun a b => py_eq a b = true) l l'.
Proof.
  revert l'. induction l as [|x l IH]; intros [|y l'] H; try discriminate.
  - constructor.
  - simpl in H. apply andb_prop in H. destruct H as [Hxy H].
    constructor; [assumption | now apply IH].
Qed.

(** the key of a frozenset: the keys of two frozensets compare as the
    frozensets and their lists of element keys do *)
Lemma py_eq_frozenset_keys l l' :
  py_eq (get_const_key (VFrozenset l)) (get_const_key (VFrozenset l'))
  = py_eq (VFrozenset l) (VFrozenset l')
    && all2 py_eq (map get_const_key l) (map get_const_key l').
Proof.
  change (get_const_key (VFrozenset l))
    with (VTuple [VType TFrozenset; VFrozenset l; VTuple (map get_const_key l)]).
  change (get_const_key (VFrozenset l'))
    with (VTuple [VType TFrozenset; VFrozenset l';
                  VTuple (map get_const_key l')]).
  rewrite (py_eq_tuple [VType TFrozenset; VFrozenset l;
                        VTuple (map get_const_key l)]).
  cbn [all2]. rewrite (py_eq_tuple (map get_const_key l)).
  change (py_eq (VType TFrozenset) (VType TFrozenset)) with true.
  now rewrite andb_true_r.
Qed.

Lemma zero_sign_variant_keys :
  (forall v w,
      zero_sign_variant v w ->
      py_eq v w = true /\ py_eq (get_const_key v) (get_const_key w) = false)
  /\ (forall l l',
         zero_sign_variants l l' ->
         all2 py_eq l l' = true
         /\ all2 py_eq (map get_const_key l) (map get_const_key l') = false).
Proof.
  assert (Hv : forall v w,
             zero_sign_variant v w ->
             py_eq v w = true
             /\ py_eq (get_const_key v) (get_const_key w) = false).
  { fix IH 3. intros v w H. destruct H as [s|s t s' t' Hst|l l' Hl|l l' Hl].
    - destruct s; split; reflexivity.
    - split; [reflexivity|]. destruct s, t, s', t'; try discriminate Hst;
        reflexivity.
    - assert (Hll : all2 py_eq l l' = true
                    /\ all2 py_eq (map get_const_key l) (map get_const_key l')
                       = false).
      { induction Hl as [x y l l' Hxy Hall|a b l l' Hab Hl IHl].
        - destruct (IH _ _ Hxy) as [Heq Hkey].
          cbn [map all2]. rewrite Heq, Hkey, (all2_Forall2 _ _ Hall).
          split; reflexivity.
        - destruct IHl as [Heq Hkey]. cbn [map all2].
          rewrite Hab, Heq, Hkey, andb_false_r. split; reflexivity. }
      destruct Hll as [Heq Hkey].
      rewrite py_eq_tuple_keys, py_eq_tuple, Heq, Hkey. split; reflexivity.
    - assert (Hll : all2 py_eq l l' = true
                    /\ all2 py_eq (map get_const_key l) (map get_const_key l')
                       = false).
      { induction Hl as [x y l l' Hxy Hall|a b l l' Hab Hl IHl].
        - destruct (IH _ _ Hxy) as [Heq Hkey].
          cbn [map all2]. rewrite Heq, Hkey, (all2_Forall2 _ _ Hall).
          split; reflexivity.
        - destruct IHl as [Heq Hkey]. cbn [map all2].
          rewrite Hab, Heq, Hkey, andb_false_r. split; reflexivity. }
      destruct Hll as [Heq Hkey].
      rewrite py_eq_frozenset_keys, Hkey, andb_false_r.
      split; [|reflexivity].
      now apply Forall2_frozenset, Forall2_all2. }
  split; [exact Hv|].
  induction 1 as [x y l l' Hxy Hall|a b l l' Hab Hl IHl].
  - destruct (Hv _ _ Hxy) as [Heq Hkey].
    cbn [map all2]. rewrite Heq, Hkey, (all2_Forall2 _ _ Hall).
    split; reflexivity.
  - destruct IHl as [Heq Hkey]. cbn [map all2].
    rewrite Hab, Heq, Hkey, andb_false_r. split; reflexivity.
Qed.

(** ** A value that equals itself has a key that equals itself *)

Lemma float_eqb_refl f : f <> S754_nan -> float_eqb f f = true.
Proof.
  unfold float_eqb, SFeqb. destruct f as [s|s| |s m e]; intros H.
  - reflexivity.
  - now destruct s.
  - contradiction.
  - simpl. destruct s; rewrite Z.compare_refl, Pos.compare_cont_refl;
      reflexivity.
Qed.

Lemma float_eqb_left f g : float_eqb f g = true -> float_eqb f f = true.
Proof.
  intros H. apply float_eqb_refl. intros ->. discriminate H.
Qed.

Lemma float_eq_int_left f z : float_eq_int f z = true -> float_eqb f f = true.
Proof.
  intros H. apply float_eqb_refl. intros ->. discriminate H.
Qed.

Lemma float_eqb_sign f : float_eqb (sign f) (sign f) = true.
Proof. apply float_eqb_refl. destruct f; discriminate. Qed.

(** what is equal to something is equal to itself *)
Lemma py_eq_left : forall v w, py_eq v w = true -> py_eq v v = true.
Proof.
  fix IH 1. intros v w H.
  destruct v as [ |b|z|f|re im|s|items|items|t|id].
  - reflexivity.
  - simpl. apply Bool.eqb_reflx.
  - simpl. apply Z.eqb_refl.
  - change (py_eq (VFloat f) (VFloat f)) with (float_eqb f f).
    destruct w; simpl in H; try discriminate H.
    + now apply float_eq_int_left in H.
    + now apply float_eq_int_left in H.
    + now apply float_eqb_left in H.
    + apply andb_prop in H. destruct H as [_ H]. now apply float_eqb_left in H.
  - change (py_eq (VComplex re im) (VComplex re im))
      with (float_eqb re re && float_eqb im im).
    assert (Him : forall g, is_zero g = true -> float_eqb g g = true)
      by (intros g Hg; destruct g; try discriminate Hg; reflexivity).
    destruct w; simpl in H; try discriminate H;
      apply andb_prop in H; destruct H as [H1 H2].
    + rewrite (Him _ H1). now rewrite (float_eq_int_left _ _ H2).
    + rewrite (Him _ H1). now rewrite (float_eq_int_left _ _ H2).
    + rewrite (Him _ H1). now rewrite (float_eqb_left _ _ H2).
    + now rewrite (float_eqb_left _ _ H1), (float_eqb_left _ _ H2).
  - simpl. apply String.eqb_refl.
  - destruct w as [ | | | | | |items'| | | ]; try discriminate H.
    rewrite py_eq_tuple in H |- *.
    revert items' H. induction items as [|x items IHitems];
      intros [|y items'] H; try discriminate H; [reflexivity|].
    cbn [all2] in H |- *. apply andb_prop in H. destruct H as [Hxy H].
    rewrite (IH _ _ Hxy). now rewrite (IHitems _ H).
  - destruct w as [ | | | | | | |items'| | ]; try discriminate H.
    rewrite py_eq_frozenset in H |- *.
    apply andb_prop in H. destruct H as [H _].
    assert (Hself : forall x, In x items -> py_eq x x = true).
    { clear -IH H. induction items as [|a items IHitems]; [intros ? []|].
      cbn [forallb] in H. apply andb_prop in H. destruct H as [Ha H].
      intros x [<-|Hx]; [|now apply IHitems].
      apply existsb_exists in Ha. destruct Ha as [y [_ Hy]].
      exact (IH _ _ Hy). }
    assert (Hall : forall l,
               (forall x, In x l -> In x items) ->
               forallb (fun x => existsb (py_eq x) items) l = true
               /\ forallb (fun y => existsb (fun x => py_eq x y) items) l
                  = true).
    { intros l Hl. split; apply forallb_forall; intros x Hx;
        apply existsb_exists; exists x; split;
          auto using Hself. }
    destruct (Hall items (fun x Hx => Hx)) as [-> ->]. reflexivity.
  - simpl. destruct t; reflexivity.
  - simpl. apply Nat.eqb_refl.
Qed.

Lemma get_const_key_self : forall v,
  py_eq v v = true -> py_eq (get_const_key v) (get_const_key v) = true.
Proof.
  fix IH 1. intros v Hv.
  assert (Hitems : forall items,
             (forall x, In x items -> py_eq x x = true) ->
             all2 py_eq (map get_const_key items) (map get_const_key items)
             = true).
  { induction items as [|x items IHitems]; intros Hin; [reflexivity|].
    cbn [map all2]. rewrite (IH x (Hin x (or_introl eq_refl))).
    apply IHitems. intros y Hy. apply Hin. now right. }
  destruct v as [ |b|z|f|re im|s|items|items|t|id];
    try (cbn [get_const_key]; rewrite py_eq_tuple; cbn [all2 type_of];
         rewrite Hv; reflexivity).
  - cbn [get_const_key]. rewrite py_eq_tuple. cbn [all2 type_of].
    rewrite Hv.
    change (py_eq (VFloat (sign f)) (VFloat (sign f)))
      with (float_eqb (sign f) (sign f)).
    now rewrite float_eqb_sign.
  - cbn [get_const_key]. rewrite py_eq_tuple. cbn [all2 type_of].
    rewrite Hv.
    change (py_eq (VFloat (sign re)) (VFloat (sign re)))
      with (float_eqb (sign re) (sign re)).
    change (py_eq (VFloat (sign im)) (VFloat (sign im)))
      with (float_eqb (sign im) (sign im)).
    now rewrite !float_eqb_sign.
  - rewrite py_eq_tuple_keys, Hv. apply Hitems.
    rewrite py_eq_tuple in Hv. clear -Hv.
    induction items as [|a items IHitems]; [intros ? []|].
    cbn [all2] in Hv. apply andb_prop in Hv. destruct Hv as [Ha Hv].
    intros x [<-|Hx]; [assumption | now apply IHitems].
  - rewrite py_eq_frozenset_keys, Hv. apply Hitems.
    rewrite py_eq_frozenset in Hv. apply andb_prop in Hv.
    destruct Hv as [Hv _]. rewrite forallb_forall in Hv.
    intros x Hx. specialize (Hv x Hx). apply existsb_exists in Hv.
    destruct Hv as [y [_ Hy]]. exact (py_eq_left _ _ Hy).
Qed.

(** C8. The floats 0.0 and -0.0 compare equal, and their keys compare
    equal exactly when the signs agree: the keys of 0.0 and -0.0 differ.
    The key of a tuple embeds the keys of its elements: the keys of two
    tuples are equal exactly when the tuples are equal and the keys of
    their elements are equal one by one. So two tuples that compare
    equal element by element but have zeros of opposite signs at some
    place, at any depth of nesting, have keys that do not compare equal;
    the same holds of complex zeros and of frozensets. The key of a
    value that equals itself equals itself. *)
Theorem get_const_key_tells_sign_of_zero :
  (forall s s',
      py_eq (VFloat (S754_zero s)) (VFloat (S754_zero s')) = true
      /\ py_eq (get_const_key (VFloat (S754_zero s)))
           (get_const_key (VFloat (S754_zero s')))
         = Bool.eqb s s')
  /\ (forall l l',
         py_eq (get_const_key (VTuple l)) (get_const_key (VTuple l'))
         = py_eq (VTuple l) (VTuple l')
           && all2 py_eq (map get_const_key l) (map get_const_key l'))
  /\ (forall v,
         py_eq v v = true ->
         py_eq (get_const_key v) (get_const_key v) = true)
  /\ (forall v w,
         zero_sign_variant v w ->
         py_eq v w = true
         /\ py_eq (get_const_key v) (get_const_key w) = false).
Proof.
  split; [|split; [|split]].
  - intros s s'. destruct s, s'; split; reflexivity.
  - exact py_eq_tuple_keys.
  - exact get_const_key_self.
  - exact (proj1 zero_sign_variant_keys).
Qed.

(** The tuples [(1, (0.0,))] and [(1, (-0.0,))]. *)
Lemma get_const_key_tells_sign_of_zero_witness :
  py_eq (VTuple [VInt 1; VTuple [VFloat (S754_zero false)]])
    (VTuple [VInt 1; VTuple [VFloat (S754_zero true)]]) = true
  /\ py_eq
       (get_const_key (VTuple [VInt 1; VTuple [VFloat (S754_zero false)]]))
       (get_const_key (VTuple [VInt 1; VTuple [VFloat (S754_zero true)]]))
     = false
  /\ py_eq
       (get_const_key (VTuple [VInt 1; VTuple [VFloat (S754_zero false)]]))
       (get_const_key (VTuple [VInt 1; VTuple [VFloat (S754_zero false)]]))
     = true.
Proof.
  assert (H : zero_sign_variant
                (VTuple [VInt 1; VTuple [VFloat (S754_zero false)]])
                (VTuple [VInt 1; VTuple [VFloat (S754_zero true)]])).
  { apply zsv_tuple. apply zsv_there; [reflexivity|].
    apply zsv_here; [|constructor].
    apply zsv_tuple. apply zsv_here; [|constructor].
    exact (zsv_zero false). }
  destruct (proj2 (proj2 (proj2 get_const_key_tells_sign_of_zero)) _ _ H)
    as [Heq Hkey].
  split; [exact Heq|]. split; [exact Hkey|].
  apply (proj1 (proj2 (proj2 get_const_key_tells_sign_of_zero))).
  reflexivity.
Defined.


(** ** The driver *)

Section DriverContract.
Variables Code Func : Type.
Variable indent : string -> string -> string.
Variable compile : string -> Res Code.
Variable validate_code : Code -> Res unit.
Variable FunctionType : Code -> Res Func.
Variable cinderjit : option (Func -> Res unit).

Let run := fuzzer_compile Code Func indent compile validate_code FunctionType
             cinderjit.

Lemma handle_pair code e u cls :
  handle Code code e = Ok (u, cls) ->
  (u = None <-> cls = SYNTAX_ERROR).
Proof.
  destruct e; simpl; try discriminate.
  - intros H. inversion H; subst. tauto.
  - destruct code as [c|]; [|discriminate].
    intros H. inversion H; subst. split; discriminate.
Qed.

(** Whatever the collaborators do, a pair that is returned has no unit
    exactly when it says that the syntax failed. *)
Lemma fuzzer_compile_pair code_str u cls :
  run code_str = Ok (u, cls) -> (u = None <-> cls = SYNTAX_ERROR).
Proof.
  unfold run, fuzzer_compile.
  destruct (compile (wrap indent code_str)) as [code|e|];
    [| apply handle_pair | discriminate].
  destruct (validate_code code) as [[]|e|];
    [| apply handle_pair | discriminate].
  destruct (FunctionType code) as [func|e|];
    [| apply handle_pair | discriminate].
  destruct cinderjit as [force_compile|].
  - destruct (force_compile func) as [[]|e|]; [| | discriminate].
    + intros H. inversion H; subst. split; discriminate.
    + destruct e; try apply handle_pair.
      intros H. inversion H; subst. split; discriminate.
  - intros H. inversion H; subst. split; discriminate.
Qed.

(** When each collaborator raises nothing but the error of its contract,
    the driver returns. *)
Lemma fuzzer_compile_returns code_str :
  raises_at_most (compile (wrap indent code_str)) SyntaxError ->
  (forall code, raises_at_most (validate_code code) VerificationError) ->
  (forall code, returns (FunctionType code)) ->
  (forall force_compile func,
      cinderjit = Some force_compile ->
      raises_at_most (force_compile func) RuntimeError) ->
  exists u cls, run code_str = Ok (u, cls).
Proof.
  intros Hc Hv Hf Hj. unfold run, fuzzer_compile.
  destruct (compile (wrap indent code_str)) as [code|e|]; simpl in Hc;
    [| subst; now eexists _, _ | contradiction].
  specialize (Hv code). specialize (Hf code).
  destruct (validate_code code) as [[]|e|]; simpl in Hv;
    [| subst; now eexists _, _ | contradiction].
  destruct (FunctionType code) as [func|e|]; simpl in Hf; try contradiction.
  destruct cinderjit as [force_compile|]; [|now eexists _, _].
  specialize (Hj force_compile func eq_refl).
  destruct (force_compile func) as [[]|e|]; simpl in Hj;
    [now eexists _, _ | subst; now eexists _, _ | contradiction].
Qed.

End DriverContract.

(** C3, as the code has it. The driver returns a pair whenever the front
    end raises nothing but SyntaxError, the verifier nothing but
    VerificationError, the construction of the function object nothing,
    and the JIT nothing but RuntimeError; a pair that it returns has one
    of the four classifications, and has no unit exactly when the
    classification is the syntax failure: a SyntaxError of the front end
    gives [(None, SYNTAX_ERROR)], a VerificationError of the verifier
    gives the unit with [VERIFICATION_ERROR]. Any other exception is not
    caught and no pair is returned: an exception of the front end, of the
    verifier or of the construction of the function object that is
    neither SyntaxError nor VerificationError, and an exception of the
    JIT that is none of these two nor RuntimeError, is the result of the
    call. The two clauses cover the later stages as well: a SyntaxError
    of the verifier, of the construction of the function object or of the
    JIT gives [(None, SYNTAX_ERROR)] although the unit is compiled, and a
    VerificationError of one of them gives the unit with
    [VERIFICATION_ERROR]. *)
Theorem fuzzer_compile_contract (Code Func : Type)
    (indent : string -> string -> string) (compile : string -> Res Code)
    (validate_code : Code -> Res unit) (FunctionType : Code -> Res Func)
    (cinderjit : option (Func -> Res unit)) (code_str : string) :
  let run := fuzzer_compile Code Func indent compile validate_code
               FunctionType cinderjit in
  (raises_at_most (compile (wrap indent code_str)) SyntaxError ->
   (forall code, raises_at_most (validate_code code) VerificationError) ->
   (forall code, returns (FunctionType code)) ->
   (forall force_compile func,
       cinderjit = Some force_compile ->
       raises_at_most (force_compile func) RuntimeError) ->
   exists u cls, run code_str = Ok (u, cls))
  /\ (forall u cls,
         run code_str = Ok (u, cls) ->
         (u = None <-> cls = SYNTAX_ERROR)
         /\ In cls [SYNTAX_ERROR; ERROR_CAUGHT_BY_JIT; VERIFICATION_ERROR;
                    SUCCESS])
  /\ (compile (wrap indent code_str) = Raise SyntaxError ->
      run code_str = Ok (None, SYNTAX_ERROR))
  /\ (forall code,
         compile (wrap indent code_str) = Ok code ->
         validate_code code = Raise VerificationError ->
         run code_str = Ok (Some code, VERIFICATION_ERROR))
  /\ (forall e,
         compile (wrap indent code_str) = Raise e ->
         e <> SyntaxError -> e <> VerificationError ->
         run code_str = Raise e)
  /\ (forall code e,
         compile (wrap indent code_str) = Ok code ->
         validate_code code = Raise e ->
         e <> SyntaxError -> e <> VerificationError ->
         run code_str = Raise e)
  /\ (forall code e,
         compile (wrap indent code_str) = Ok code ->
         validate_code code = Ok tt ->
         FunctionType code = Raise e ->
         e <> SyntaxError -> e <> VerificationError ->
         run code_str = Raise e)
  /\ (forall code func force_compile e,
         compile (wrap indent code_str) = Ok code ->
         validate_code code = Ok tt ->
         FunctionType code = Ok func ->
         cinderjit = Some force_compile ->
         force_compile func = Raise e ->
         e <> RuntimeError -> e <> SyntaxError -> e <> VerificationError ->
         run code_str = Raise e)
  /\ (forall code e,
         compile (wrap indent code_str) = Ok code ->
         validate_code code = Raise e
         \/ (validate_code code = Ok tt /\ FunctionType code = Raise e)
         \/ (exists func force_compile,
                validate_code code = Ok tt
                /\ FunctionType code = Ok func
                /\ cinderjit = Some force_compile
                /\ force_compile func = Raise e) ->
         (e = SyntaxError -> run code_str = Ok (None, SYNTAX_ERROR))
         /\ (e = VerificationError ->
             run code_str = Ok (Some code, VERIFICATION_ERROR))).
Proof.
  intros run.
  split; [|split; [|split; [|split; [|split; [|split; [|split; [|split]]]]]]].
  - apply fuzzer_compile_returns.
  - intros u cls H. split.
    + now apply (fuzzer_compile_pair _ _ _ _ _ _ _ _ _ _ H).
    + destruct cls; simpl; tauto.
  - intros H. unfold run, fuzzer_compile. now rewrite H.
  - intros code Hc Hv. unfold run, fuzzer_compile. now rewrite Hc, Hv.
  - intros e H Hs Hv. unfold run, fuzzer_compile. rewrite H.
    destruct e; try reflexivity; contradiction.
  - intros code e Hc H Hs Hv. unfold run, fuzzer_compile. rewrite Hc, H.
    destruct e; try reflexivity; contradiction.
  - intros code e Hc Hok H Hs Hv. unfold run, fuzzer_compile.
    rewrite Hc, Hok, H.
    destruct e; try reflexivity; contradiction.
  - intros code func force_compile e Hc Hok Hf Hj H Hr Hs Hv.
    unfold run, fuzzer_compile. rewrite Hc, Hok, Hf, Hj, H.
    destruct e; try reflexivity; contradiction.
  - intros code e Hc H. unfold run, fuzzer_compile. rewrite Hc.
    destruct H as [H|[[Hok H]|[func [force_compile [Hok [Hf [Hj H]]]]]]].
    + rewrite H. split; intros ->; reflexivity.
    + rewrite Hok, H. split; intros ->; reflexivity.
    + rewrite Hok, Hf, Hj, H. split; intros ->; reflexivity.
Qed.

(** The front end that rejects the wrapped text of [def f(:] makes the
    driver return [(None, SYNTAX_ERROR)]. *)
Lemma fuzzer_compile_contract_witness :
  fuzzer_compile nat nat (fun text prefix => (prefix ++ text)%string)
    (fun text =>
       if String.eqb text
            (wrap (fun text prefix => (prefix ++ text)%string) "def f(:")
       then Raise SyntaxError else Ok O)
    (fun _ => Ok tt) (fun code => Ok code) None "def f(:"
  = Ok (None, SYNTAX_ERROR)
  /\ exists u cls,
       fuzzer_compile nat nat (fun text prefix => (prefix ++ text)%string)
         (fun text =>
            if String.eqb text
                 (wrap (fun text prefix => (prefix ++ text)%string) "def f(:")
            then Raise SyntaxError else Ok O)
         (fun _ => Ok tt) (fun code => Ok code) None "def f(:"
       = Ok (u, cls).
Proof.
  split; [reflexivity|].
  apply (proj1 (fuzzer_compile_contract nat nat
                  (fun text prefix => (prefix ++ text)%string)
                  (fun text =>
                     if String.eqb text
                          (wrap (fun text prefix => (prefix ++ text)%string)
                             "def f(:")
                     then Raise SyntaxError else Ok O)
                  (fun _ => Ok tt) (fun code => Ok code) None "def f(:")).
  - reflexivity.
  - intros code. exact I.
  - intros code. exact I.
  - intros force_compile func H. discriminate H.
Defined.

(** C3, as the spec has it, fails: an exception of the front end that is
    neither of the two that are caught leaves the driver without a pair,
    and so do such an exception of the verifier, a VerificationError
    that is raised before the unit is bound, and an exception of the JIT
    that is not a RuntimeError. *)
Lemma fuzzer_compile_lets_errors_through :
  fuzzer_compile nat nat (fun text prefix => (prefix ++ text)%string)
    (fun _ => Raise KeyError) (fun _ => Ok tt) (fun code => Ok code) None
    "x = 1"
  = Raise KeyError
  /\ fuzzer_compile nat nat (fun text prefix => (prefix ++ text)%string)
       (fun _ => Ok 7%nat) (fun _ => Raise KeyError) (fun code => Ok code)
       None "x = 1"
     = Raise KeyError
  /\ fuzzer_compile nat nat (fun text prefix => (prefix ++ text)%string)
       (fun _ => Raise VerificationError) (fun _ => Ok tt)
       (fun code => Ok code) None "x = 1"
     = Raise UnboundLocalError
  /\ fuzzer_compile nat nat (fun text prefix => (prefix ++ text)%string)
       (fun _ => Ok 7%nat) (fun _ => Ok tt) (fun code => Ok code)
       (Some (fun _ => Raise IndexError)) "x = 1"
     = Raise IndexError.
Proof. repeat split; reflexivity. Qed.

(** The fuzzer itself, which runs inside the front end, raises such an
    exception: the second randomization of a free variable finds its name
    in neither table of the closure. *)
Lemma randomize_oparg_raises_KeyError :
  let self :=
    mkFuzzer
      (mkGraph false
         (mkTables [] (table_of []) (table_of []) (table_of [("x", 0)])
            (table_of []))
         (table_of [("x", 0)]) []) [] in
  let entropy := fun n => Z.of_nat n + 1 in
  exists self' c',
    randomize_oparg entropy 3 "LOAD_DEREF" (VStr "x") 0 self 0%nat
    = Ok (self', c')
    /\ randomize_oparg entropy 3 "LOAD_DEREF" (VStr "x") 0 self' c'
       = Raise KeyError.
Proof. eexists _, _. split; reflexivity. Qed.

(** ** Dictionaries *)

Section DictFacts.
Context {V : Type}.







Lemma dict_remove_length (k : PyVal) (d : dict V) :
  dict_contains k d = true ->
  List.length d = S (List.length (dict_remove k d)).
Proof.
  unfold dict_contains. induction d as [|[k' v'] d IH]; [discriminate|].
  simpl. destruct (py_eq k' k); [reflexivity|].
  intros H. simpl. now rewrite <- IH.
Qed.

Lemma dict_set_length (k : PyVal) (v : V) (d : dict V) :
  (List.length d <= List.length (dict_set k v d))%nat
  /\ (1 <= List.length (dict_set k v d))%nat.
Proof.
  induction d as [|[k' v'] d IH]; simpl; [lia|].
  destruct (py_eq k' k); simpl; lia.
Qed.

Lemma dict_del_Ok (k : PyVal) (d d' : dict V) :
  dict_del k d = Ok d' ->
  d' = dict_remove k d /\ List.length d = S (List.length d').
Proof.
  unfold dict_del. destruct (dict_contains k d) eqn:E; [|discriminate].
  intros H. inversion H; subst. split; [reflexivity|].
  now apply dict_remove_length.
Qed.

End DictFacts.

(** ** The mutation record *)

Section RandomizeOparg.
Variable entropy : nat -> Z.

Lemma randomized_for_recorded fuel oparg record r c :
  dict_get oparg record = Some r ->
  randomized_for entropy fuel oparg record c = Ok ((r, record), c).
Proof. unfold randomized_for. now intros ->. Qed.



(** What a call of [randomize_oparg] for [LOAD_CONST] does. *)
Lemma randomize_oparg_load_const fuel oparg ioparg self c :
  randomize_oparg entropy fuel "LOAD_CONST" oparg ioparg self c
  = if do_not_emit_bytecode (graph self) then Ok (self, c)
    else
      match randomized_for entropy fuel oparg (oparg_randomizations self) c
      with
      | Ok ((_, record), c') =>
          Ok (mkFuzzer
                (emit_instr (mkInstruction "LOAD_CONST" oparg ioparg)
                   (tables (graph self)) (graph self)) record, c')
      | Raise e => Raise e
      | OutOfFuel => OutOfFuel
      end.
Proof.
  unfold randomize_oparg. destruct (do_not_emit_bytecode (graph self));
    [reflexivity|].
  unfold bind.
  destruct (randomized_for entropy fuel oparg (oparg_randomizations self) c)
    as [[[r record] c']| |]; reflexivity.
Qed.

End RandomizeOparg.

(** C10. On the randomization path a [LOAD_CONST] is not mutated. A call
    of [randomize_oparg] for it leaves every table as it is, the constant
    pool included, and the one instruction that it emits (none when the
    graph emits no bytecode) is [LOAD_CONST] with the original operand
    and the encoded operand that was computed for it. The call returns
    whenever the lookup or randomization for the mutation record does, at
    once when the operand is recorded already. *)
Theorem load_const_is_not_mutated (entropy : nat -> Z) (fuel : nat)
    (oparg : PyVal) (ioparg : Z) (self : FuzzerState) (c : nat) :
  (forall self' c',
      randomize_oparg entropy fuel "LOAD_CONST" oparg ioparg self c
      = Ok (self', c') ->
      tables (graph self') = tables (graph self)
      /\ closure (graph self') = closure (graph self)
      /\ current (graph self')
         = if do_not_emit_bytecode (graph self) then current (graph self)
           else (current (graph self)
                 ++ [mkInstruction "LOAD_CONST" oparg ioparg])%list)
  /\ (forall r record c',
         do_not_emit_bytecode (graph self) = false ->
         randomized_for entropy fuel oparg (oparg_randomizations self) c
         = Ok ((r, record), c') ->
         randomize_oparg entropy fuel "LOAD_CONST" oparg ioparg self c
         = Ok (mkFuzzer
                 (emit_instr (mkInstruction "LOAD_CONST" oparg ioparg)
                    (tables (graph self)) (graph self)) record, c'))
  /\ (forall r,
         do_not_emit_bytecode (graph self) = false ->
         dict_get oparg (oparg_randomizations self) = Some r ->
         randomize_oparg entropy fuel "LOAD_CONST" oparg ioparg self c
         = Ok (mkFuzzer
                 (emit_instr (mkInstruction "LOAD_CONST" oparg ioparg)
                    (tables (graph self)) (graph self))
                 (oparg_randomizations self), c))
  /\ (do_not_emit_bytecode (graph self) = true ->
      randomize_oparg entropy fuel "LOAD_CONST" oparg ioparg self c
      = Ok (self, c)).
Proof.
  rewrite randomize_oparg_load_const.
  split; [|split; [|split]].
  - intros self' c'. destruct (do_not_emit_bytecode (graph self)).
    + intros H. inversion H; subst. tauto.
    + destruct (randomized_for entropy fuel oparg (oparg_randomizations self) c)
        as [[[r record] c1]| |]; try discriminate.
      intros H. inversion H; subst. simpl. tauto.
  - intros r record c' Hflag Hrr. now rewrite Hflag, Hrr.
  - intros r Hflag Hget. rewrite Hflag.
    now rewrite (randomized_for_recorded entropy fuel oparg _ r c Hget).
  - now intros ->.
Qed.

(** The constant 7, at index 0 of the pool, with an empty record. *)
Lemma load_const_is_not_mutated_witness :
  let self :=
    mkFuzzer
      (mkGraph false
         (mkTables [(get_const_key (VInt 7), 0)] (table_of []) (table_of [])
            (table_of []) (table_of []))
         (table_of []) []) [] in
  let entropy := fun n => Z.of_nat n + 1 in
  exists self',
    randomize_oparg entropy 3 "LOAD_CONST" (VInt 7) 0 self 0%nat
    = Ok (self', 1%nat)
    /\ tables (graph self') = tables (graph self)
    /\ closure (graph self') = closure (graph self)
    /\ current (graph self') = [mkInstruction "LOAD_CONST" (VInt 7) 0].
Proof.
  intros self entropy. eexists. split; [reflexivity|].
  apply (proj1 (load_const_is_not_mutated entropy 3 (VInt 7) 0 self 0%nat)
           _ 1%nat).
  reflexivity.
Defined.


(** ** The feasibility guard *)

Lemma get_index_length item s :
  (List.length (keys s) <= List.length (keys (snd (get_index item s))))%nat
  /\ (1 <= List.length (keys (snd (get_index item s))))%nat.
Proof.
  unfold get_index. destruct (dict_get item (keys s)) as [idx|] eqn:G.
  - simpl. split; [lia|]. destruct (keys s); [discriminate | simpl; lia].
  - simpl. apply dict_set_length.
Qed.

Lemma iset_del_Ok item s s' :
  iset_del item s = Ok s' ->
  List.length (keys s) = S (List.length (keys s')).
Proof.
  unfold iset_del. destruct (dict_del item (keys s)) as [d| |] eqn:D;
    try discriminate.
  intros H. inversion H; subst. simpl. now apply dict_del_Ok in D.
Qed.

Lemma disjointb_mem a b x :
  disjointb a b = true -> mem x a = true -> mem x b = false.
Proof.
  unfold disjointb. rewrite forallb_forall. intros H Hx.
  apply mem_In in Hx. apply H in Hx. now apply negb_true_iff in Hx.
Qed.

(** no opcode has its operand in two tables *)
Lemma table_sets_exclusive opcode :
  (mem opcode Fuzzer.INSTRS_WITH_OPARG_IN_CONSTS = true ->
   mem opcode Fuzzer.INSTRS_WITH_OPARG_IN_NAMES = false
   /\ mem opcode Fuzzer.INSTRS_WITH_OPARG_IN_VARNAMES = false)
  /\ (mem opcode Fuzzer.INSTRS_WITH_OPARG_IN_NAMES = true ->
      mem opcode Fuzzer.INSTRS_WITH_OPARG_IN_VARNAMES = false).
Proof.
  split; [intros H; split | intros H];
    (eapply disjointb_mem; [|exact H]); vm_compute; reflexivity.
Qed.

(** the sizes of the tables do not shrink when the new oparg is entered,
    and the table of the new opcode is not empty afterwards *)
Lemma insert_new_oparg_sizes entropy fuel randomized_opcode oparg t c new t' c' :
  insert_new_oparg entropy fuel randomized_opcode oparg t c
  = Ok ((new, t'), c') ->
  (dict_len (consts t) <= dict_len (consts t')
   /\ iset_len (names t) <= iset_len (names t')
   /\ iset_len (varnames t) <= iset_len (varnames t')
   /\ iset_len (freevars t) <= iset_len (freevars t')
   /\ iset_len (cellvars t) <= iset_len (cellvars t'))
  /\ (mem randomized_opcode Fuzzer.INSTRS_WITH_OPARG_IN_CONSTS = true ->
      1 <= dict_len (consts t')).
Proof.
  unfold insert_new_oparg, iset_len, dict_len. intros H.
  destruct (mem randomized_opcode Fuzzer.INSTRS_WITH_OPARG_IN_CONSTS).
  { apply bind_Ok in H. destruct H as [x [c1 [_ H]]]. inversion H; subst.
    simpl.
    pose proof (dict_set_length (get_const_key new)
                  (Z.of_nat (List.length (consts t))) (consts t)).
    split; [|intros _]; lia. }
  split; [|discriminate].
  destruct (mem randomized_opcode Fuzzer.INSTRS_WITH_OPARG_IN_NAMES).
  { apply bind_Ok in H. destruct H as [x [c1 [_ H]]]. inversion H; subst.
    simpl. pose proof (get_index_length new (names t)). lia. }
  destruct (mem randomized_opcode Fuzzer.INSTRS_WITH_OPARG_IN_VARNAMES).
  { apply bind_Ok in H. destruct H as [x [c1 [_ H]]]. inversion H; subst.
    simpl. pose proof (get_index_length new (varnames t)). lia. }
  destruct (mem randomized_opcode Fuzzer.INSTRS_WITH_OPARG_IN_CLOSURE).
  { apply bind_Ok in H. destruct H as [x [c1 [_ H]]]. inversion H; subst.
    simpl. pose proof (get_index_length new (freevars t)). lia. }
  apply bind_Ok in H. destruct H as [x [c1 [_ H]]]. inversion H; subst.
  lia.
Qed.

(** For the constant pool, the names and the local slots the guard does
    what it is there for: the table that loses the operand of the
    original opcode keeps an entry. *)
Lemma guard_protects_consts_names_varnames entropy fuel original_opcode
    randomized_opcode oparg t cl c new t' c' :
  mem original_opcode Fuzzer.INSTRS_WITH_OPARG_IN_CLOSURE = false ->
  can_replace_oparg original_opcode (consts t) (names t) (varnames t) cl
  = true ->
  generate_oparg_for_randomized_opcode entropy fuel original_opcode
    randomized_opcode oparg t c = Ok ((new, t'), c') ->
  1 <= dict_len (consts t') + Z.b2z (negb (mem original_opcode
                                       Fuzzer.INSTRS_WITH_OPARG_IN_CONSTS))
  /\ 1 <= iset_len (names t') + Z.b2z (negb (mem original_opcode
                                         Fuzzer.INSTRS_WITH_OPARG_IN_NAMES))
  /\ 1 <= iset_len (varnames t')
          + Z.b2z (negb (mem original_opcode
                           Fuzzer.INSTRS_WITH_OPARG_IN_VARNAMES)).
Proof.
  intros Hcl Hguard H. unfold generate_oparg_for_randomized_opcode in H.
  apply bind_Ok in H. destruct H as [t1 [c1 [Hdel Hins]]].
  apply insert_new_oparg_sizes in Hins. destruct Hins as [Hle _].
  unfold lift in Hdel.
  destruct (delete_original_oparg original_opcode oparg t) as [t1'| |] eqn:D;
    try discriminate.
  inversion Hdel; subst t1' c1. clear Hdel.
  destruct (table_sets_exclusive original_opcode) as [X1 X2].
  unfold delete_original_oparg in D. unfold can_replace_oparg in Hguard.
  unfold iset_len, dict_len in *.
  destruct (mem original_opcode Fuzzer.INSTRS_WITH_OPARG_IN_CONSTS) eqn:M1.
  { destruct (X1 eq_refl) as [N V]. rewrite N, V.
    destruct (dict_del (get_const_key oparg) (consts t)) as [d| |] eqn:Dd;
      try discriminate.
    inversion D; subst t1. apply dict_del_Ok in Dd. destruct Dd as [_ Dd].
    apply Z.ltb_lt in Hguard. cbn [consts names varnames set_consts] in *.
    cbn [negb Z.b2z]. lia. }
  destruct (mem original_opcode Fuzzer.INSTRS_WITH_OPARG_IN_NAMES) eqn:M2.
  { rewrite (X2 eq_refl).
    destruct (iset_del oparg (names t)) as [s| |] eqn:Dd; try discriminate.
    inversion D; subst t1. apply iset_del_Ok in Dd.
    apply Z.ltb_lt in Hguard. cbn [consts names varnames set_names] in *.
    cbn [negb Z.b2z]. lia. }
  destruct (mem original_opcode Fuzzer.INSTRS_WITH_OPARG_IN_VARNAMES) eqn:M3.
  { destruct (iset_del oparg (varnames t)) as [s| |] eqn:Dd; try discriminate.
    inversion D; subst t1. apply iset_del_Ok in Dd.
    apply Z.ltb_lt in Hguard. cbn [consts names varnames set_varnames] in *.
    cbn [negb Z.b2z]. lia. }
  cbn [negb Z.b2z]. lia.
Qed.

(** C2. The guard does not protect the free and the cell slots: it looks
    at the table [closure], which a substitution never updates, while the
    operand is deleted from [freevars] or [cellvars]. With one free
    variable [x] and one cell variable [y] the guard lets [LOAD_DEREF x]
    be replaced by [LOAD_NAME], and the substitution leaves [freevars]
    with no entry. For the constant pool, the names and the local slots
    the guard does suffice. *)
Theorem guard_misses_free_and_cell_slots :
  let t :=
    mkTables [] (table_of []) (table_of []) (table_of [("x", 0)])
      (table_of [("y", 0)]) in
  let closure := table_of [("y", 0); ("x", 1)] in
  let entropy := fun n => Z.of_nat n + 1 in
  can_replace_oparg "LOAD_DEREF" (consts t) (names t) (varnames t) closure
  = true
  /\ (exists t',
         generate_oparg_for_randomized_opcode entropy 3 "LOAD_DEREF"
           "LOAD_NAME" (VStr "x") t 0%nat
         = Ok ((VStr "c", t'), 2%nat)
         /\ iset_len (freevars t') = 0
         /\ names t' = table_of [("c", 0)])
  /\ forall entropy fuel original_opcode randomized_opcode oparg t cl c
            new t' c',
       mem original_opcode Fuzzer.INSTRS_WITH_OPARG_IN_CLOSURE = false ->
       can_replace_oparg original_opcode (consts t) (names t) (varnames t) cl
       = true ->
       generate_oparg_for_randomized_opcode entropy fuel original_opcode
         randomized_opcode oparg t c = Ok ((new, t'), c') ->
       1 <= dict_len (consts t')
            + Z.b2z (negb (mem original_opcode
                             Fuzzer.INSTRS_WITH_OPARG_IN_CONSTS))
       /\ 1 <= iset_len (names t')
               + Z.b2z (negb (mem original_opcode
                                Fuzzer.INSTRS_WITH_OPARG_IN_NAMES))
       /\ 1 <= iset_len (varnames t')
               + Z.b2z (negb (mem original_opcode
                                Fuzzer.INSTRS_WITH_OPARG_IN_VARNAMES)).
Proof.
  intros t closure entropy. split; [reflexivity|].
  split; [eexists; repeat split; reflexivity|].
  exact guard_protects_consts_names_varnames.
Qed.

(** ** Indices *)

(** [replace_const_var] keeps the index: the new key takes the index of
    the old one. *)
Lemma replace_const_var_keeps_index old_key new_key consts i consts' :
  replace_const_var old_key new_key consts = Ok (i, consts') ->
  dict_get old_key consts = Some i
  /\ consts' = dict_set new_key i (dict_remove old_key consts).
Proof.
  unfold replace_const_var.
  destruct (dict_get old_key consts) as [idx|] eqn:G; [|discriminate].
  unfold dict_del, dict_contains. rewrite G. simpl.
  intros H. inversion H; subst. tauto.
Qed.

(** [replace_name_var] gives the new name the number of entries that are
    left, whatever the index of the old name was. *)
Lemma replace_name_var_index name randomized_name location :
  iset_contains name location = true ->
  dict_get randomized_name (dict_remove name (keys location)) = None ->
  fst (replace_name_var name randomized_name location)
  = iset_len location - 1.
Proof.
  intros Hin Hnew. unfold replace_name_var, get_index. rewrite Hin. simpl.
  rewrite Hnew. simpl. unfold iset_len, dict_len.
  rewrite (dict_remove_length name (keys location) Hin). lia.
Qed.

(** C6. The tables of names do not keep their indices. With the local
    slots [a] at 0 and [b] at 1, the randomization of [a] returns the
    index 1, not 0, and leaves the table with the index 1 twice and the
    index 0 unused; the substitution of [LOAD_NAME m] leaves the names
    in the same state. In general the new name receives the number of
    entries that are left, which is the old index only for the last
    entry. The constant pool, on the randomization path, does keep the
    index. *)
Theorem replace_name_var_moves_the_index :
  replace_name_var (VStr "a") (VStr "r") (table_of [("a", 0); ("b", 1)])
  = (1, table_of [("b", 1); ("r", 1)])
  /\ generate_oparg_for_randomized_opcode (fun n => Z.of_nat n + 1) 3
       "LOAD_NAME" "LOAD_GLOBAL" (VStr "m")
       (mkTables [] (table_of [("m", 0); ("n", 1)]) (table_of [])
          (table_of []) (table_of [])) 0%nat
     = Ok ((VStr "c",
            mkTables [] (table_of [("n", 1); ("c", 1)]) (table_of [])
              (table_of []) (table_of [])), 2%nat)
  /\ replace_const_var (get_const_key (VInt 7)) (get_const_key (VInt 9))
       [(get_const_key (VInt 7), 0); (get_const_key VNone, 1)]
     = Ok (0, [(get_const_key VNone, 1); (get_const_key (VInt 9), 0)])
  /\ (forall name randomized_name location,
         iset_contains name location = true ->
         dict_get randomized_name (dict_remove name (keys location)) = None ->
         fst (replace_name_var name randomized_name location)
         = iset_len location - 1)
  /\ forall old_key new_key consts i consts',
       replace_const_var old_key new_key consts = Ok (i, consts') ->
       dict_get old_key consts = Some i
       /\ consts' = dict_set new_key i (dict_remove old_key consts).
Proof.
  split; [reflexivity|]. split; [reflexivity|]. split; [reflexivity|].
  split; [exact replace_name_var_index | exact replace_const_var_keeps_index].
Qed.


(** * The mutation record across the calls of [emit] *)

Section MutationRecord.
Variable entropy : nat -> Z.
Variable maybeEmitSetLineno : FlowGraph -> FlowGraph.
Variable is_block : PyVal -> bool.
Variable addOutEdge : PyVal -> FlowGraph -> FlowGraph.
Variable convertArg : string -> PyVal -> FlowGraph -> Res (Z * FlowGraph).








End MutationRecord.


(** * Further properties of the code *)

(** ** The random strings and integers *)

Lemma string_of_list_ascii_length l :
  String.length (string_of_list_ascii l) = List.length l.
Proof. induction l as [|ch l IH]; simpl; congruence. Qed.

Lemma random_chars_Ok entropy n : forall c chars c',
  random_chars entropy n c = Ok (chars, c') ->
  List.length chars = n
  /\ Forall (fun ch => In ch alphabet) chars
  /\ c' = (c + n)%nat.
Proof.
  induction n as [|n IH]; intros c chars c' H.
  - inversion H; subst. split; [reflexivity|]. split; [constructor | lia].
  - cbn [random_chars] in H.
    apply bind_Ok in H. destruct H as [ch [c1 [Hch H]]].
    apply bind_Ok in H. destruct H as [rest [c2 [Hrest H]]].
    inversion H; subst. apply choice_In in Hch. destruct Hch as [Hin ->].
    apply IH in Hrest. destruct Hrest as [Hlen [Hall ->]].
    split; [simpl; congruence|]. split; [now constructor | lia].
Qed.

Lemma attempt_string_Ok entropy lower upper c s c' :
  attempt_string entropy lower upper c = Ok (s, c') ->
  Z.max 0 lower <= Z.of_nat (String.length s) <= Z.max 0 upper
  /\ Forall (fun ch => In ch alphabet) (list_ascii_of_string s)
  /\ c' = (S c + String.length s)%nat.
Proof.
  unfold attempt_string. intros H.
  apply bind_Ok in H. destruct H as [newlen [c1 [Hlen H]]].
  apply bind_Ok in H. destruct H as [chars [c2 [Hchars H]]].
  inversion H; subst. apply randint_range in Hlen. destruct Hlen as [Hr ->].
  apply random_chars_Ok in Hchars. destruct Hchars as [Hl [Hall ->]].
  rewrite string_of_list_ascii_length, list_ascii_of_string_of_list_ascii, Hl.
  split; [lia|]. split; [assumption | reflexivity].
Qed.

Lemma generate_random_string_Ok entropy fuel original lower upper c s c' :
  generate_random_string entropy fuel original lower upper c = Ok (s, c') ->
  s <> original
  /\ Z.max 0 lower <= Z.of_nat (String.length s) <= Z.max 0 upper
  /\ Forall (fun ch => In ch alphabet) (list_ascii_of_string s).
Proof.
  intros H. rewrite generate_random_string_resample in H.
  apply resample_sound in H. destruct H as [Hne [n [c1 [_ [_ Hs]]]]].
  apply String.eqb_neq in Hne. apply attempt_string_Ok in Hs. tauto.
Qed.

(** X1. A string that [generate_random_string] returns is not the
    original, has a length between the bounds (no length below 0), and is
    made of letters, digits and punctuation only; with the upper bound
    below the lower one the call raises ValueError. *)
Theorem generate_random_string_result (entropy : nat -> Z) (original : string)
    (lower upper : Z) (c : nat) :
  (forall fuel s c',
      generate_random_string entropy fuel original lower upper c = Ok (s, c') ->
      s <> original
      /\ Z.max 0 lower <= Z.of_nat (String.length s) <= Z.max 0 upper
      /\ Forall (fun ch => In ch alphabet) (list_ascii_of_string s))
  /\ (upper < lower ->
      forall fuel,
        generate_random_string entropy (S fuel) original lower upper c
        = Raise ValueError).
Proof.
  split.
  - intros fuel s c' H. exact (generate_random_string_Ok _ _ _ _ _ _ _ _ H).
  - intros Hlt fuel. cbn [generate_random_string]. unfold bind, randint.
    apply Z.ltb_lt in Hlt. now rewrite Hlt.
Qed.

(** The source 3, 4, 5, ... gives the string [efg] for the original
    [abc]. *)
Lemma generate_random_string_result_witness :
  generate_random_string (fun n => Z.of_nat n + 3) 2 "abc" 0 100 0%nat
  = Ok ("efg", 4%nat)
  /\ "efg" <> "abc"
  /\ Z.max 0 0 <= Z.of_nat (String.length "efg") <= Z.max 0 100
  /\ Forall (fun ch => In ch alphabet) (list_ascii_of_string "efg").
Proof.
  split; [reflexivity|].
  apply (proj1 (generate_random_string_result (fun n => Z.of_nat n + 3)
                  "abc" 0 100 0%nat) 2%nat "efg" 4%nat).
  reflexivity.
Defined.

(** X2. An integer that [generate_random_integer] returns is not the
    original and lies between the bounds, both included; the call has
    consumed at least one draw; with the upper bound below the lower one
    it raises ValueError. *)
Theorem generate_random_integer_result (entropy : nat -> Z)
    (original lower upper : Z) (c : nat) :
  (forall fuel x c',
      generate_random_integer entropy fuel original lower upper c = Ok (x, c') ->
      x <> original /\ lower <= x <= upper /\ (c < c')%nat)
  /\ (upper < lower ->
      forall fuel,
        generate_random_integer entropy (S fuel) original lower upper c
        = Raise ValueError).
Proof.
  split.
  - intros fuel x c' H.
    pose proof (generate_random_integer_range _ _ _ _ _ _ _ _ H) as [Hne Hr].
    split; [assumption|]. split; [assumption|].
    clear Hne Hr. revert c H.
    induction fuel as [|fuel IH]; intros c H; [discriminate|].
    cbn [generate_random_integer] in H.
    apply bind_Ok in H. destruct H as [y [c1 [Hy H]]].
    apply randint_range in Hy. destruct Hy as [_ ->].
    destruct (y =? original).
    + apply IH in H. lia.
    + inversion H; subst. lia.
  - intros Hlt fuel. cbn [generate_random_integer]. unfold bind, randint.
    apply Z.ltb_lt in Hlt. now rewrite Hlt.
Qed.

(** The source 0, 1, 2, ... over 0..5 with the original 0. *)
Lemma generate_random_integer_result_witness :
  generate_random_integer (fun n => Z.of_nat n) 2 0 0 5 0%nat = Ok (1, 2%nat)
  /\ 1 <> 0 /\ 0 <= 1 <= 5 /\ (0 < 2)%nat.
Proof.
  split; [reflexivity|].
  apply (proj1 (generate_random_integer_result (fun n => Z.of_nat n) 0 0 5
                  0%nat) 2%nat 1 2%nat).
  reflexivity.
Defined.


(** ** The shape of a randomized value *)

Lemma randomize_variable_randomized entropy fuel : forall var r c c',
  randomize_variable entropy fuel var c = Ok (r, c') -> randomized var r.
Proof.
  fix IH 1. intros var r c c' H.
  destruct var as [ |b|z|f|re im|s|items|items|t|id];
    try (inversion H; subst; now apply rnd_other).
  - cbn [randomize_variable] in H.
    apply bind_Ok in H. destruct H as [x [c1 [Hx H]]]. inversion H; subst.
    apply generate_random_integer_range in Hx. now apply rnd_bool.
  - cbn [randomize_variable] in H.
    apply bind_Ok in H. destruct H as [x [c1 [Hx H]]]. inversion H; subst.
    apply generate_random_integer_range in Hx. now apply rnd_int.
  - cbn [randomize_variable] in H.
    apply bind_Ok in H. destruct H as [x [c1 [Hx H]]]. inversion H; subst.
    pose proof (generate_random_string_Ok _ _ _ _ _ _ _ _ Hx)
      as [Hne [Hlen _]].
    apply rnd_str; [assumption|].
    unfold STR_LEN_UPPER_BOUND in *. lia.
  - cbn [randomize_variable] in H.
    apply bind_Ok in H. destruct H as [rs [c1 [Hrs H]]].
    assert (Hall : randomized_all items rs).
    { clear H. revert rs c c1 Hrs.
      induction items as [|v items IHitems]; intros rs c c1 Hrs.
      - inversion Hrs; subst. constructor.
      - cbn [for_each] in Hrs.
        apply bind_Ok in Hrs. destruct Hrs as [y [c2 [Hy Hrs]]].
        apply bind_Ok in Hrs. destruct Hrs as [ys [c3 [Hys Hrs]]].
        inversion Hrs; subst. constructor.
        + exact (IH _ _ _ _ Hy).
        + exact (IHitems _ _ _ Hys). }
    inversion H; subst. now apply rnd_tuple.
  - cbn [randomize_variable] in H.
    apply bind_Ok in H. destruct H as [rs [c1 [Hrs H]]].
    assert (Hall : randomized_all items rs).
    { clear H. revert rs c c1 Hrs.
      induction items as [|v items IHitems]; intros rs c c1 Hrs.
      - inversion Hrs; subst. constructor.
      - cbn [for_each] in Hrs.
        apply bind_Ok in Hrs. destruct Hrs as [y [c2 [Hy Hrs]]].
        apply bind_Ok in Hrs. destruct Hrs as [ys [c3 [Hys Hrs]]].
        inversion Hrs; subst. constructor.
        + exact (IH _ _ _ _ Hy).
        + exact (IHitems _ _ _ Hys). }
    inversion H; subst. now apply rnd_frozenset.
Qed.

Lemma randomized_all_length l l' :
  randomized_all l l' -> List.length l = List.length l'.
Proof. induction 1; simpl; congruence. Qed.

(** What [frozenset(...)] keeps: the set so far stays as it is, in front;
    no element of the set is [==] to a later one; and the set is no
    longer than the sequence that it is made from. *)
Lemma add_each_prefix l : forall seen,
  exists rest, add_each seen l = (seen ++ rest)%list.
Proof.
  induction l as [|x l IH]; intros seen; simpl.
  - exists []. now rewrite app_nil_r.
  - destruct (existsb (fun y => py_eq y x) seen); [apply IH|].
    destruct (IH (seen ++ [x])%list) as [rest Hrest].
    exists (x :: rest). rewrite Hrest. now rewrite <- app_assoc.
Qed.

Lemma distinct_snoc seen x :
  ForallOrdPairs (fun a b => py_eq a b = false) seen ->
  existsb (fun y => py_eq y x) seen = false ->
  ForallOrdPairs (fun a b => py_eq a b = false) (seen ++ [x])%list.
Proof.
  induction 1 as [|a seen Ha Hseen IH]; intros Hx; simpl.
  - repeat constructor.
  - simpl in Hx. apply orb_false_iff in Hx. destruct Hx as [Hax Hx].
    constructor; [|now apply IH].
    apply Forall_app. split; [assumption|]. now constructor.
Qed.

Lemma add_each_distinct l : forall seen,
  ForallOrdPairs (fun a b => py_eq a b = false) seen ->
  ForallOrdPairs (fun a b => py_eq a b = false) (add_each seen l).
Proof.
  induction l as [|x l IH]; intros seen Hseen; simpl; [assumption|].
  destruct (existsb (fun y => py_eq y x) seen) eqn:E; [now apply IH|].
  apply IH. now apply distinct_snoc.
Qed.

Lemma add_each_length l : forall seen,
  (List.length (add_each seen l) <= List.length seen + List.length l)%nat.
Proof.
  induction l as [|x l IH]; intros seen; simpl; [lia|].
  destruct (existsb (fun y => py_eq y x) seen).
  - specialize (IH seen). lia.
  - specialize (IH (seen ++ [x])%list). rewrite length_app in IH.
    simpl in IH. lia.
Qed.

(** X3. [randomize_variable] keeps the shape of its argument: a string
    gives another string of at most 100 characters, an integer another
    integer of the platform's range, a bool an integer that differs from
    its value 0 or 1, a tuple a tuple of the same length whose elements
    are randomized in turn, a frozenset the set of its randomized
    elements. The set takes the randomized elements in their order: the
    first one is in it, of elements that are equal the first one stays,
    so that no two elements of the set are equal, and the set may be
    smaller than the original. A value of any other type comes back as it
    is, at any recursion depth and without a draw; so does the empty
    tuple, which is therefore not different from the original. *)
Theorem randomize_variable_shape (entropy : nat -> Z) (fuel : nat)
    (var : PyVal) (c : nat) :
  (forall r c',
      randomize_variable entropy fuel var c = Ok (r, c') -> randomized var r)
  /\ (forall items r c',
         var = VTuple items ->
         randomize_variable entropy fuel var c = Ok (r, c') ->
         exists items',
           r = VTuple items' /\ List.length items' = List.length items)
  /\ (forall items r c',
         var = VFrozenset items ->
         randomize_variable entropy fuel var c = Ok (r, c') ->
         exists rs,
           randomized_all items rs
           /\ r = VFrozenset (dedupe rs)
           /\ (List.length (dedupe rs) <= List.length items)%nat
           /\ ForallOrdPairs (fun a b => py_eq a b = false) (dedupe rs)
           /\ (forall x rs',
                  rs = x :: rs' -> exists rest, dedupe rs = x :: rest))
  /\ (randomizable var = false ->
      randomize_variable entropy fuel var c = Ok (var, c))
  /\ (var = VTuple [] ->
      randomize_variable entropy fuel var c = Ok (var, c)).
Proof.
  split; [|split; [|split; [|split]]].
  - intros r c' H. exact (randomize_variable_randomized _ _ _ _ _ _ H).
  - intros items r c' -> H.
    apply randomize_variable_randomized in H.
    inversion H as [ | | |l l' Hall| |v Hv]; subst.
    + exists l'. split; [reflexivity|].
      symmetry. now apply randomized_all_length.
    + discriminate Hv.
  - intros items r c' -> H.
    apply randomize_variable_randomized in H.
    inversion H as [ | | | |l l' Hall|v Hv]; subst; [|discriminate Hv].
    exists l'. split; [assumption|]. split; [reflexivity|].
    split; [|split].
    + rewrite (randomized_all_length _ _ Hall).
      apply (add_each_length l' []).
    + apply add_each_distinct. constructor.
    + intros x rs' ->. unfold dedupe. simpl.
      apply (add_each_prefix rs' [x]).
  - intros Hv. destruct var; try discriminate Hv; reflexivity.
  - intros ->. reflexivity.
Qed.

(** The pair [(7, None)] with the source 1, 2, 3, ...; and the set of
    1.0 and 5 with a source that draws 1 for the 5: the set that comes
    back holds 1.0 alone. *)
Lemma randomize_variable_shape_witness :
  randomize_variable (fun n => Z.of_nat n + 1) 2 (VTuple [VInt 7; VNone])
    0%nat
  = Ok (VTuple [VInt (-9223372036854775807); VNone], 1%nat)
  /\ randomized (VTuple [VInt 7; VNone])
       (VTuple [VInt (-9223372036854775807); VNone])
  /\ randomize_variable (fun _ => 2 ^ 63 + 1) 2
       (VFrozenset [VFloat (float_one false); VInt 5]) 0%nat
     = Ok (VFrozenset [VFloat (float_one false)], 1%nat)
  /\ randomized (VFrozenset [VFloat (float_one false); VInt 5])
       (VFrozenset [VFloat (float_one false)]).
Proof.
  split; [reflexivity|]. split; [|split; [reflexivity|]].
  - apply (proj1 (randomize_variable_shape (fun n => Z.of_nat n + 1) 2
                    (VTuple [VInt 7; VNone]) 0%nat) _ 1%nat).
    reflexivity.
  - apply (proj1 (randomize_variable_shape (fun _ => 2 ^ 63 + 1) 2
                    (VFrozenset [VFloat (float_one false); VInt 5]) 0%nat)
             _ 1%nat).
    reflexivity.
Defined.

(** ** Opcodes that are left alone *)

Lemma find_existsb_false {A} (f : A -> bool) l :
  existsb f l = false -> find f l = None.
Proof.
  induction l as [|x l IH]; [reflexivity|].
  simpl. destruct (f x); [discriminate | exact IH].
Qed.

Lemma randomize_opcode_ineligible entropy fuel opcode c :
  eligible opcode = false ->
  randomize_opcode entropy fuel opcode c = Ok (opcode, c).
Proof.
  unfold eligible, randomize_opcode. intros E.
  destruct (mem opcode Fuzzer.INSTRS_WITH_BRANCHES); [reflexivity|].
  destruct (mem opcode Fuzzer.INSTRS_WITH_OPARG_AFFECTING_STACK);
    [reflexivity|].
  destruct (String.eqb opcode "LOAD_CONST"); [reflexivity|].
  cbn [negb andb orb] in *.
  rewrite for_stack_depth_set_find.
  now rewrite (find_existsb_false _ _ E).
Qed.

(** X4. [randomize_opcode] returns another opcode exactly for the
    eligible ones. For a branch, an opcode of variable effect,
    [LOAD_CONST] or an opcode of none of the six classes it returns the
    opcode itself, at any recursion depth and without a draw; so the test
    [randomized_opcode != opcode] of [emit] is the test of eligibility. *)
Theorem randomize_opcode_changes_eligible_only (entropy : nat -> Z)
    (fuel : nat) (opcode : string) (c : nat) :
  (eligible opcode = false ->
   randomize_opcode entropy fuel opcode c = Ok (opcode, c))
  /\ forall r c',
       randomize_opcode entropy fuel opcode c = Ok (r, c') ->
       String.eqb r opcode = negb (eligible opcode).
Proof.
  split; [apply randomize_opcode_ineligible|].
  intros r c' H. destruct (eligible opcode) eqn:E.
  - destruct (randomize_opcode_eligible entropy fuel opcode c E) as [Heq _].
    rewrite Heq in H. apply generate_random_opcode_In in H.
    now apply String.eqb_neq.
  - rewrite (randomize_opcode_ineligible entropy fuel opcode c E) in H.
    inversion H; subst. apply String.eqb_refl.
Qed.

(** [COMPARE_OP] is in none of the six classes. *)
Lemma randomize_opcode_changes_eligible_only_witness :
  eligible "COMPARE_OP" = false
  /\ randomize_opcode (fun _ => 1) 0 "COMPARE_OP" 5%nat
     = Ok ("COMPARE_OP", 5%nat).
Proof.
  split; [reflexivity|].
  apply (proj1 (randomize_opcode_changes_eligible_only (fun _ => 1) 0
                  "COMPARE_OP" 5%nat)).
  reflexivity.
Defined.

Lemma generate_random_ioparg_kept entropy fuel opcode ioparg c :
  mem opcode Fuzzer.INSTRS_WITH_BRANCHES
  || mem opcode Fuzzer.INSTRS_WITH_OPARG_AFFECTING_STACK
  || mem opcode Fuzzer.INSTRS_WITH_OPARG_IN_CONSTS = true ->
  generate_random_ioparg entropy fuel opcode ioparg c = Ok (ioparg, c).
Proof. unfold generate_random_ioparg. now intros ->. Qed.

Lemma generate_random_ioparg_drawn entropy fuel opcode ioparg c x c' :
  mem opcode Fuzzer.INSTRS_WITH_BRANCHES
  || mem opcode Fuzzer.INSTRS_WITH_OPARG_AFFECTING_STACK
  || mem opcode Fuzzer.INSTRS_WITH_OPARG_IN_CONSTS = false ->
  String.eqb opcode "COMPARE_OP" = false ->
  generate_random_ioparg entropy fuel opcode ioparg c = Ok (x, c') ->
  x <> ioparg /\ 0 <= x <= 2 ^ 32 - 1.
Proof.
  unfold generate_random_ioparg. intros -> -> H.
  now apply generate_random_integer_range in H.
Qed.

(** X5. [generate_random_ioparg] returns the encoded operand as it is,
    without a draw, for a branch, an opcode of variable effect and an
    opcode whose operand is in the constant pool; for every other opcode
    but [COMPARE_OP] the operand that it returns is another one, in
    0..2^32-1. *)
Theorem generate_random_ioparg_result (entropy : nat -> Z) (fuel : nat)
    (opcode : string) (ioparg : Z) (c : nat) :
  (mem opcode Fuzzer.INSTRS_WITH_BRANCHES
   || mem opcode Fuzzer.INSTRS_WITH_OPARG_AFFECTING_STACK
   || mem opcode Fuzzer.INSTRS_WITH_OPARG_IN_CONSTS = true ->
   generate_random_ioparg entropy fuel opcode ioparg c = Ok (ioparg, c))
  /\ (mem opcode Fuzzer.INSTRS_WITH_BRANCHES
      || mem opcode Fuzzer.INSTRS_WITH_OPARG_AFFECTING_STACK
      || mem opcode Fuzzer.INSTRS_WITH_OPARG_IN_CONSTS = false ->
      String.eqb opcode "COMPARE_OP" = false ->
      forall x c',
        generate_random_ioparg entropy fuel opcode ioparg c = Ok (x, c') ->
        x <> ioparg /\ 0 <= x <= 2 ^ 32 - 1).
Proof.
  split.
  - apply generate_random_ioparg_kept.
  - intros H1 H2 x c' H.
    exact (generate_random_ioparg_drawn _ _ _ _ _ _ _ H1 H2 H).
Qed.

(** [RETURN_VALUE] keeps its operand; [ROT_TWO] gets the one drawn. *)
Lemma generate_random_ioparg_result_witness :
  generate_random_ioparg (fun _ => 9) 0 "RETURN_VALUE" 4 0%nat
  = Ok (4, 0%nat)
  /\ generate_random_ioparg (fun _ => 9) 1 "ROT_TWO" 4 0%nat = Ok (9, 1%nat)
  /\ 9 <> 4 /\ 0 <= 9 <= 2 ^ 32 - 1.
Proof.
  split.
  - apply (proj1 (generate_random_ioparg_result (fun _ => 9) 0 "RETURN_VALUE"
                    4 0%nat)).
    reflexivity.
  - split; [reflexivity|].
    apply (proj2 (generate_random_ioparg_result (fun _ => 9) 1 "ROT_TWO" 4
                    0%nat) eq_refl eq_refl 9 1%nat).
    reflexivity.
Defined.

(** ** Constant keys and the type of a constant *)

Lemma get_const_key_head v :
  exists rest, get_const_key v = VTuple (VType (type_of v) :: v :: rest).
Proof. destruct v; eexists; reflexivity. Qed.

Lemma PyType_eqb_eq a b : PyType_eqb a b = true <-> a = b.
Proof. destruct a, b; simpl; split; congruence. Qed.

(** X6. A constant that equals itself (one with no NaN in it) and
    another constant whose key compares equal to its key have the same
    type and compare equal themselves; and constants of different types
    have keys that differ, even when they are equal as [True], [1] and
    [1.0] are. *)
Theorem get_const_key_refines_equality (v w : PyVal) :
  (py_eq v v = true ->
   py_eq (get_const_key v) (get_const_key w) = true ->
   type_of v = type_of w /\ py_eq v w = true)
  /\ (type_of v <> type_of w ->
      py_eq (get_const_key v) (get_const_key w) = false).
Proof.
  destruct (get_const_key_head v) as [rv ->].
  destruct (get_const_key_head w) as [rw ->].
  rewrite py_eq_tuple. cbn [all2].
  change (py_eq (VType (type_of v)) (VType (type_of w)))
    with (PyType_eqb (type_of v) (type_of w)).
  split.
  - intros _ H. apply andb_prop in H. destruct H as [Ht H].
    apply andb_prop in H. destruct H as [Hv _].
    split; [now apply PyType_eqb_eq | assumption].
  - intros Hne. destruct (PyType_eqb (type_of v) (type_of w)) eqn:E;
      [|reflexivity].
    apply PyType_eqb_eq in E. contradiction.
Qed.

(** [True] and [1] are equal and of different types; the keys of [1]
    and [1] are equal. *)
Lemma get_const_key_refines_equality_witness :
  py_eq (VBool true) (VInt 1) = true
  /\ py_eq (get_const_key (VBool true)) (get_const_key (VInt 1)) = false
  /\ type_of (VInt 1) = type_of (VInt 1) /\ py_eq (VInt 1) (VInt 1) = true.
Proof.
  split; [reflexivity|]. split.
  - apply (proj2 (get_const_key_refines_equality (VBool true) (VInt 1))).
    discriminate.
  - apply (proj1 (get_const_key_refines_equality (VInt 1) (VInt 1)));
      reflexivity.
Defined.

(** X7. Two complex zeros always compare equal, and their keys compare
    equal exactly when the signs of the real parts agree and the signs of
    the imaginary parts agree. *)
Theorem get_const_key_complex_zero (s1 t1 s2 t2 : bool) :
  py_eq (VComplex (S754_zero s1) (S754_zero t1))
    (VComplex (S754_zero s2) (S754_zero t2)) = true
  /\ py_eq (get_const_key (VComplex (S754_zero s1) (S754_zero t1)))
       (get_const_key (VComplex (S754_zero s2) (S754_zero t2)))
     = Bool.eqb s1 s2 && Bool.eqb t1 t2.
Proof. destruct s1, t1, s2, t2; split; reflexivity. Qed.

(** ** The classification of the driver *)

Section DriverClassification.
Variables Code Func : Type.
Variable indent : string -> string -> string.
Variable compile : string -> Res Code.
Variable validate_code : Code -> Res unit.
Variable FunctionType : Code -> Res Func.
Variable cinderjit : option (Func -> Res unit).

Let run := fuzzer_compile Code Func indent compile validate_code FunctionType
             cinderjit.

Lemma handle_class code e u cls :
  handle Code code e = Ok (u, cls) ->
  (cls = SYNTAX_ERROR /\ u = None)
  \/ (cls = VERIFICATION_ERROR /\ u = code /\ code <> None).
Proof.
  destruct e; simpl; try discriminate.
  - intros H. inversion H; subst. left. tauto.
  - destruct code as [c|]; [|discriminate].
    intros H. inversion H; subst. right. split; [reflexivity|].
    split; [reflexivity | discriminate].
Qed.

(** the verdicts that only the last statements of the driver give *)
Lemma fuzzer_compile_late_verdict code_str u cls :
  run code_str = Ok (u, cls) ->
  cls = SUCCESS \/ cls = ERROR_CAUGHT_BY_JIT ->
  exists code func,
    u = Some code
    /\ compile (wrap indent code_str) = Ok code
    /\ validate_code code = Ok tt
    /\ FunctionType code = Ok func
    /\ match cinderjit with
       | None => cls = SUCCESS
       | Some force_compile =>
           (cls = SUCCESS /\ force_compile func = Ok tt)
           \/ (cls = ERROR_CAUGHT_BY_JIT
               /\ force_compile func = Raise RuntimeError)
       end.
Proof.
  unfold run, fuzzer_compile. intros H Hcls.
  assert (Hh : forall c e, handle Code c e = Ok (u, cls) -> False).
  { intros c e Hc. apply handle_class in Hc.
    destruct Hc as [[-> _]|[-> _]]; destruct Hcls; discriminate. }
  destruct (compile (wrap indent code_str)) as [code|e|] eqn:Ec;
    [| now apply Hh in H | discriminate].
  destruct (validate_code code) as [[]|e|] eqn:Ev;
    [| now apply Hh in H | discriminate].
  destruct (FunctionType code) as [func|e|] eqn:Ef;
    [| now apply Hh in H | discriminate].
  exists code, func.
  destruct cinderjit as [force_compile|].
  - destruct (force_compile func) as [[]|e|] eqn:Ej; [| | discriminate].
    + inversion H; subst. do 4 (split; [assumption || reflexivity|]).
      left. tauto.
    + destruct e; try (now apply Hh in H).
      inversion H; subst. do 4 (split; [assumption || reflexivity|]).
      right. tauto.
  - inversion H; subst. do 4 (split; [assumption || reflexivity|]).
    reflexivity.
Qed.

Lemma fuzzer_compile_unit code_str u cls :
  run code_str = Ok (Some u, cls) ->
  compile (wrap indent code_str) = Ok u.
Proof.
  unfold run, fuzzer_compile.
  assert (Hh : forall c e, handle Code (Some c) e = Ok (Some u, cls) -> c = u).
  { intros c e Hc. destruct e; simpl in Hc; try discriminate.
    now inversion Hc. }
  destruct (compile (wrap indent code_str)) as [code|e|]; [| | discriminate].
  - destruct (validate_code code) as [[]|e|]; [| | discriminate].
    + destruct (FunctionType code) as [func|e|]; [| | discriminate].
      * destruct cinderjit as [force_compile|].
        -- destruct (force_compile func) as [[]|e|]; [| | discriminate].
           ++ intros H. now inversion H.
           ++ destruct e; intros H; try (apply Hh in H; now subst).
              now inversion H.
        -- intros H. now inversion H.
      * intros H. apply Hh in H. now subst.
    + intros H. apply Hh in H. now subst.
  - intros H. destruct e; simpl in H; discriminate.
Qed.

End DriverClassification.

(** X8. The verdicts of the driver. [SUCCESS] and [ERROR_CAUGHT_BY_JIT]
    are returned only with the unit that the front end compiled, after
    the verifier has accepted it and its function object has been built:
    [SUCCESS] when there is no JIT or the JIT compiled it,
    [ERROR_CAUGHT_BY_JIT] when the JIT raised RuntimeError, so never
    without a JIT. And they are returned then: a unit that is compiled
    and verified and whose function object is built gives [SUCCESS]
    without a JIT and with a JIT that compiles it, and
    [ERROR_CAUGHT_BY_JIT] with a JIT that raises RuntimeError. A unit
    that is returned is always the one the front end returned. A
    RuntimeError of the verifier is not classified: it propagates. *)
Theorem fuzzer_compile_verdicts (Code Func : Type)
    (indent : string -> string -> string) (compile : string -> Res Code)
    (validate_code : Code -> Res unit) (FunctionType : Code -> Res Func)
    (cinderjit : option (Func -> Res unit)) (code_str : string) :
  let run := fuzzer_compile Code Func indent compile validate_code
               FunctionType cinderjit in
  (forall u cls,
      run code_str = Ok (u, cls) ->
      cls = SUCCESS \/ cls = ERROR_CAUGHT_BY_JIT ->
      exists code func,
        u = Some code
        /\ compile (wrap indent code_str) = Ok code
        /\ validate_code code = Ok tt
        /\ FunctionType code = Ok func
        /\ match cinderjit with
           | None => cls = SUCCESS
           | Some force_compile =>
               (cls = SUCCESS /\ force_compile func = Ok tt)
               \/ (cls = ERROR_CAUGHT_BY_JIT
                   /\ force_compile func = Raise RuntimeError)
           end)
  /\ (forall u cls,
         run code_str = Ok (Some u, cls) ->
         compile (wrap indent code_str) = Ok u)
  /\ (forall code func force_compile,
         compile (wrap indent code_str) = Ok code ->
         validate_code code = Ok tt ->
         FunctionType code = Ok func ->
         cinderjit = Some force_compile ->
         force_compile func = Raise RuntimeError ->
         run code_str = Ok (Some code, ERROR_CAUGHT_BY_JIT))
  /\ (forall code func,
         compile (wrap indent code_str) = Ok code ->
         validate_code code = Ok tt ->
         FunctionType code = Ok func ->
         match cinderjit with
         | None => True
         | Some force_compile => force_compile func = Ok tt
         end ->
         run code_str = Ok (Some code, SUCCESS))
  /\ (forall code,
         compile (wrap indent code_str) = Ok code ->
         validate_code code = Raise RuntimeError ->
         run code_str = Raise RuntimeError).
Proof.
  intros run. split; [|split; [|split; [|split]]].
  - apply fuzzer_compile_late_verdict.
  - apply fuzzer_compile_unit.
  - intros code func force_compile Hc Hv Hf Hj Hr.
    unfold run, fuzzer_compile. rewrite Hc, Hv, Hf, Hj, Hr. reflexivity.
  - intros code func Hc Hv Hf Hj.
    unfold run, fuzzer_compile. rewrite Hc, Hv, Hf.
    destruct cinderjit as [force_compile|]; [now rewrite Hj | reflexivity].
  - intros code Hc Hv. unfold run, fuzzer_compile. rewrite Hc, Hv. reflexivity.
Qed.

(** A JIT that raises RuntimeError on every function, and one that
    compiles every function. *)
Lemma fuzzer_compile_verdicts_witness :
  fuzzer_compile nat nat (fun text prefix => (prefix ++ text)%string)
    (fun _ => Ok 7%nat) (fun _ => Ok tt) (fun code => Ok code)
    (Some (fun _ => Raise RuntimeError)) "x = 1"
  = Ok (Some 7%nat, ERROR_CAUGHT_BY_JIT)
  /\ fuzzer_compile nat nat (fun text prefix => (prefix ++ text)%string)
       (fun _ => Ok 7%nat) (fun _ => Ok tt) (fun code => Ok code)
       (Some (fun _ => Ok tt)) "x = 1"
     = Ok (Some 7%nat, SUCCESS).
Proof.
  split.
  - apply (proj1 (proj2 (proj2 (fuzzer_compile_verdicts nat nat
                           (fun text prefix => (prefix ++ text)%string)
                           (fun _ => Ok 7%nat) (fun _ => Ok tt)
                           (fun code => Ok code)
                           (Some (fun _ => Raise RuntimeError)) "x = 1")))
             7%nat 7%nat (fun _ => Raise RuntimeError));
      reflexivity.
  - apply (proj1 (proj2 (proj2 (proj2 (fuzzer_compile_verdicts nat nat
                           (fun text prefix => (prefix ++ text)%string)
                           (fun _ => Ok 7%nat) (fun _ => Ok tt)
                           (fun code => Ok code)
                           (Some (fun _ => Ok tt)) "x = 1"))))
             7%nat 7%nat);
      reflexivity.
Defined.

(** ** Entries and their indices *)

Section DictLookup.
Context {V : Type}.

Lemma dict_get_set_same (k : PyVal) (v : V) d :
  py_eq k k = true -> dict_get k (dict_set k v d) = Some v.
Proof.
  intros Hk. induction d as [|[k' v'] d IH]; simpl.
  - now rewrite Hk.
  - destruct (py_eq k' k) eqn:E; simpl; rewrite E; [reflexivity | exact IH].
Qed.

Lemma dict_set_length_exact (k : PyVal) (v : V) d :
  List.length (dict_set k v d)
  = if dict_contains k d then List.length d else S (List.length d).
Proof.
  unfold dict_contains. induction d as [|[k' v'] d IH]; [reflexivity|].
  simpl. destruct (py_eq k' k); [reflexivity|].
  simpl. rewrite IH. now destruct (dict_get k d).
Qed.

End DictLookup.

Lemma get_index_lookup item s :
  py_eq item item = true ->
  dict_get item (keys (snd (get_index item s))) = Some (fst (get_index item s)).
Proof.
  intros Hk. unfold get_index.
  destruct (dict_get item (keys s)) as [idx|] eqn:G; simpl.
  - exact G.
  - now apply dict_get_set_same.
Qed.

Lemma replace_const_var_lookup old_key new_key consts i consts' :
  replace_const_var old_key new_key consts = Ok (i, consts') ->
  py_eq new_key new_key = true ->
  dict_get new_key consts' = Some i.
Proof.
  intros H Hk.
  pose proof (replace_const_var_keeps_index _ _ _ _ _ H) as [_ ->].
  now apply dict_get_set_same.
Qed.

(** X9. For keys that equal themselves (keys with no NaN in them):
    [replace_const_var] raises KeyError when the old key is not in the
    pool, and returns when it is. When it returns, the new key is in the
    pool with the index that the old key had; the pool has as many
    entries as before, unless the new key was already there beside the
    old one: then the two entries become one, which has the index of the
    old key, and the pool has one entry less. *)
Theorem replace_const_var_result (old_key new_key : PyVal) (consts : dict Z) :
  py_eq old_key old_key = true ->
  py_eq new_key new_key = true ->
  (dict_get old_key consts = None ->
   replace_const_var old_key new_key consts = Raise KeyError)
  /\ (forall i,
         dict_get old_key consts = Some i ->
         exists consts',
           replace_const_var old_key new_key consts = Ok (i, consts'))
  /\ forall i consts',
       replace_const_var old_key new_key consts = Ok (i, consts') ->
       dict_get old_key consts = Some i
       /\ dict_get new_key consts' = Some i
       /\ List.length consts
          = if dict_contains new_key (dict_remove old_key consts)
            then S (List.length consts') else List.length consts'.
Proof.
  intros Hold Hnew. split; [|split].
  - unfold replace_const_var. now intros ->.
  - intros i Hg. unfold replace_const_var, dict_del, dict_contains.
    rewrite Hg. simpl. now eexists.
  - intros i consts' H.
    pose proof (replace_const_var_keeps_index _ _ _ _ _ H) as [Hg ->].
    split; [assumption|]. split; [now apply dict_get_set_same|].
    rewrite dict_set_length_exact.
    assert (Hc : dict_contains old_key consts = true)
      by (unfold dict_contains; now rewrite Hg).
    rewrite (dict_remove_length _ _ Hc).
    now destruct (dict_contains new_key (dict_remove old_key consts)).
Qed.

(** The key of 7 is replaced by the key of [None], which the pool holds
    already. *)
Lemma replace_const_var_result_witness :
  replace_const_var (get_const_key (VInt 7)) (get_const_key VNone)
    [(get_const_key (VInt 7), 0); (get_const_key VNone, 1)]
  = Ok (0, [(get_const_key VNone, 0)])
  /\ dict_get (get_const_key VNone) [(get_const_key VNone, 0)] = Some 0.
Proof.
  split; [reflexivity|].
  apply (proj2 (proj2 (replace_const_var_result (get_const_key (VInt 7))
                         (get_const_key VNone)
                         [(get_const_key (VInt 7), 0);
                          (get_const_key VNone, 1)] eq_refl eq_refl))
           0 [(get_const_key VNone, 0)] eq_refl).
Defined.

Lemma replace_closure_var_lookup name randomized_name ioparg freevars
    cellvars i fv cv :
  replace_closure_var name randomized_name ioparg freevars cellvars
  = Ok (i, fv, cv) ->
  py_eq randomized_name randomized_name = true ->
  if iset_contains name freevars
  then cv = cellvars /\ dict_get randomized_name (keys fv) = Some i
  else fv = freevars /\ dict_get randomized_name (keys cv) = Some i.
Proof.
  intros H Hk. unfold replace_closure_var in H.
  destruct (iset_contains name freevars).
  - destruct (iset_del name freevars) as [s| |]; try discriminate.
    simpl in H. pose proof (get_index_lookup randomized_name s Hk) as L.
    destruct (get_index randomized_name s) as [idx s'].
    inversion H; subst. tauto.
  - destruct (iset_del name cellvars) as [s| |]; try discriminate.
    simpl in H. pose proof (get_index_lookup randomized_name s Hk) as L.
    destruct (get_index randomized_name s) as [idx s'].
    inversion H; subst. tauto.
Qed.



(** ** The instruction that is emitted and the tables *)

Lemma replace_name_var_lookup name randomized_name location :
  py_eq randomized_name randomized_name = true ->
  dict_get randomized_name
    (keys (snd (replace_name_var name randomized_name location)))
  = Some (fst (replace_name_var name randomized_name location)).
Proof. intros Hk. unfold replace_name_var. now apply get_index_lookup. Qed.

Lemma closure_set_exclusive opcode :
  mem opcode Fuzzer.INSTRS_WITH_OPARG_IN_CLOSURE = true ->
  mem opcode Fuzzer.INSTRS_WITH_OPARG_IN_CONSTS = false
  /\ mem opcode Fuzzer.INSTRS_WITH_OPARG_IN_NAMES = false
  /\ mem opcode Fuzzer.INSTRS_WITH_OPARG_IN_VARNAMES = false.
Proof.
  intros H. repeat split;
    (eapply disjointb_mem; [|exact H]); vm_compute; reflexivity.
Qed.

Lemma names_set_exclusive opcode :
  mem opcode Fuzzer.INSTRS_WITH_OPARG_IN_NAMES = true ->
  mem opcode Fuzzer.INSTRS_WITH_OPARG_IN_CONSTS = false.
Proof.
  intros H. eapply disjointb_mem; [|exact H]. vm_compute. reflexivity.
Qed.

Lemma varnames_set_exclusive opcode :
  mem opcode Fuzzer.INSTRS_WITH_OPARG_IN_VARNAMES = true ->
  mem opcode Fuzzer.INSTRS_WITH_OPARG_IN_CONSTS = false
  /\ mem opcode Fuzzer.INSTRS_WITH_OPARG_IN_NAMES = false.
Proof.
  intros H. split;
    (eapply disjointb_mem; [|exact H]); vm_compute; reflexivity.
Qed.

(** X11. The instruction that [randomize_oparg] emits for a
    table-resident opcode refers to an entry that exists: its encoded
    operand is the index under which the table of the opcode (the names,
    the local slots, the constant pool by the key of the operand, the
    free or the cell slots) holds its operand after the call. *)
Theorem randomize_oparg_index_is_entry (entropy : nat -> Z) (fuel : nat)
    (opcode : string) (oparg : PyVal) (ioparg : Z) (self self' : FuzzerState)
    (c c' : nat) :
  do_not_emit_bytecode (graph self) = false ->
  table_resident opcode = true ->
  randomize_oparg entropy fuel opcode oparg ioparg self c = Ok (self', c') ->
  exists r j,
    current (graph self')
    = (current (graph self) ++ [mkInstruction opcode r j])%list
    /\ (py_eq r r = true ->
        py_eq (get_const_key r) (get_const_key r) = true ->
        holds_replacement opcode (tables (graph self')) r j).
Proof.
  intros Hflag Hres H. unfold randomize_oparg in H. rewrite Hflag in H.
  apply bind_Ok in H. destruct H as [[r record] [c1 [_ H]]].
  unfold table_resident in Hres. unfold holds_replacement.
  destruct (mem opcode Fuzzer.INSTRS_WITH_OPARG_IN_NAMES).
  { pose proof (replace_name_var_lookup oparg r
                  (names (tables (graph self)))) as L.
    destruct (replace_name_var oparg r (names (tables (graph self))))
      as [j s].
    inversion H; subst. exists r, j. split; [reflexivity|].
    intros Hk _. now apply L. }
  destruct (mem opcode Fuzzer.INSTRS_WITH_OPARG_IN_VARNAMES).
  { pose proof (replace_name_var_lookup oparg r
                  (varnames (tables (graph self)))) as L.
    destruct (replace_name_var oparg r (varnames (tables (graph self))))
      as [j s].
    inversion H; subst. exists r, j. split; [reflexivity|].
    intros Hk _. now apply L. }
  destruct (mem opcode Fuzzer.INSTRS_WITH_OPARG_IN_CONSTS) eqn:Mc.
  { cbn [orb andb] in Hres.
    destruct (negb (String.eqb opcode "LOAD_CONST")) eqn:Nl.
    - apply bind_Ok in H. destruct H as [[j d] [c2 [Hl H]]].
      unfold lift in Hl.
      destruct (replace_const_var (get_const_key oparg) (get_const_key r)
                  (consts (tables (graph self)))) as [[j' d']| |] eqn:R;
        try discriminate.
      inversion Hl; subst j' d' c2. inversion H; subst.
      exists r, j. split; [reflexivity|]. intros _ Hk. simpl.
      exact (replace_const_var_lookup _ _ _ _ _ R Hk).
    - destruct (closure_set_exclusive opcode Hres) as [Hc _]. congruence. }
  destruct (mem opcode Fuzzer.INSTRS_WITH_OPARG_IN_CLOSURE); [|discriminate].
  cbn [andb] in H.
  apply bind_Ok in H. destruct H as [[[j fv] cv] [c2 [Hl H]]].
  unfold lift in Hl.
  destruct (replace_closure_var oparg r ioparg
              (freevars (tables (graph self)))
              (cellvars (tables (graph self)))) as [[[j' fv'] cv']| |] eqn:R;
    try discriminate.
  inversion Hl; subst j' fv' cv' c2. inversion H; subst.
  exists r, j. split; [reflexivity|]. intros Hk _. simpl.
  pose proof (replace_closure_var_lookup _ _ _ _ _ _ _ _ R Hk) as L.
  destruct (iset_contains oparg (freevars (tables (graph self)))); tauto.
Qed.

(** The local slots [a], [b] and the load of [a]. *)
Lemma randomize_oparg_index_is_entry_witness :
  let entropy := fun n => Z.of_nat n + 1 in
  let self :=
    mkFuzzer
      (mkGraph false
         (mkTables [] (table_of []) (table_of [("a", 0); ("b", 1)])
            (table_of []) (table_of []))
         (table_of []) []) [] in
  exists self' r j,
    randomize_oparg entropy 3 "LOAD_FAST" (VStr "a") 0 self 0%nat
    = Ok (self', 2%nat)
    /\ current (graph self')
       = (current (graph self) ++ [mkInstruction "LOAD_FAST" r j])%list
    /\ (py_eq r r = true ->
        py_eq (get_const_key r) (get_const_key r) = true ->
        holds_replacement "LOAD_FAST" (tables (graph self')) r j).
Proof.
  intros entropy self.
  eexists. 
  destruct (randomize_oparg_index_is_entry entropy 3 "LOAD_FAST" (VStr "a") 0
              self _ 0%nat 2%nat eq_refl eq_refl eq_refl) as [r [j H]].
  exists r, j. split; [reflexivity | exact H].
Defined.

(** ** The operand of a substituted opcode *)

Lemma insert_new_oparg_name entropy fuel randomized_opcode oparg t c new t' c' :
  mem randomized_opcode Fuzzer.INSTRS_WITH_OPARG_IN_CONSTS = false ->
  mem randomized_opcode Fuzzer.INSTRS_WITH_OPARG_IN_NAMES
  || mem randomized_opcode Fuzzer.INSTRS_WITH_OPARG_IN_VARNAMES
  || mem randomized_opcode Fuzzer.INSTRS_WITH_OPARG_IN_CLOSURE = true ->
  insert_new_oparg entropy fuel randomized_opcode oparg t c
  = Ok ((new, t'), c') ->
  exists s j,
    new = VStr s
    /\ s <> ""
    /\ Z.of_nat (String.length s) <= STR_LEN_UPPER_BOUND
    /\ Forall (fun ch => In ch alphabet) (list_ascii_of_string s)
    /\ dict_get new
         (keys (if mem randomized_opcode Fuzzer.INSTRS_WITH_OPARG_IN_NAMES
                then names t'
                else if mem randomized_opcode
                          Fuzzer.INSTRS_WITH_OPARG_IN_VARNAMES
                     then varnames t' else freevars t')) = Some j.
Proof.
  intros Hc Hn H. unfold insert_new_oparg in H. rewrite Hc in H.
  assert (Hstr : forall c0 x c1,
             randomize_variable entropy fuel (VStr "") c0 = Ok (x, c1) ->
             exists s, x = VStr s /\ s <> ""
                       /\ Z.of_nat (String.length s) <= STR_LEN_UPPER_BOUND
                       /\ Forall (fun ch => In ch alphabet)
                            (list_ascii_of_string s)).
  { intros c0 x c1 Hx. cbn [randomize_variable] in Hx.
    apply bind_Ok in Hx. destruct Hx as [s [c2 [Hs Hx]]]. inversion Hx; subst.
    exists s.
    pose proof (generate_random_string_Ok _ _ _ _ _ _ _ _ Hs)
      as [Hne [Hlen Hall]].
    unfold STR_LEN_UPPER_BOUND in *. repeat split; try assumption. lia. }
  destruct (mem randomized_opcode Fuzzer.INSTRS_WITH_OPARG_IN_NAMES).
  { apply bind_Ok in H. destruct H as [x [c1 [Hx H]]]. inversion H; subst.
    destruct (Hstr _ _ _ Hx) as [s [-> [Hne [Hlen Hall]]]].
    exists s, (fst (get_index (VStr s) (names t))).
    repeat split; try assumption. simpl.
    apply get_index_lookup. simpl. apply String.eqb_refl. }
  destruct (mem randomized_opcode Fuzzer.INSTRS_WITH_OPARG_IN_VARNAMES).
  { apply bind_Ok in H. destruct H as [x [c1 [Hx H]]]. inversion H; subst.
    destruct (Hstr _ _ _ Hx) as [s [-> [Hne [Hlen Hall]]]].
    exists s, (fst (get_index (VStr s) (varnames t))).
    repeat split; try assumption. simpl.
    apply get_index_lookup. simpl. apply String.eqb_refl. }
  destruct (mem randomized_opcode Fuzzer.INSTRS_WITH_OPARG_IN_CLOSURE);
    [|discriminate].
  apply bind_Ok in H. destruct H as [x [c1 [Hx H]]]. inversion H; subst.
  destruct (Hstr _ _ _ Hx) as [s [-> [Hne [Hlen Hall]]]].
  exists s, (fst (get_index (VStr s) (freevars t))).
  repeat split; try assumption. simpl.
  apply get_index_lookup. simpl. apply String.eqb_refl.
Qed.

(** X12. When the new opcode has its operand in the names, the local
    slots or the closure, the operand that the substitution makes for it
    is a string that is not empty, of at most 100 characters, all of them
    letters, digits or punctuation, and the table of the new opcode (the
    free slots for the closure) holds it afterwards. The operand of the
    original opcode plays no part in it. *)
Theorem substitution_new_name (entropy : nat -> Z) (fuel : nat)
    (original_opcode randomized_opcode : string) (oparg : PyVal) (t : Tables)
    (c : nat) (new : PyVal) (t' : Tables) (c' : nat) :
  mem randomized_opcode Fuzzer.INSTRS_WITH_OPARG_IN_CONSTS = false ->
  mem randomized_opcode Fuzzer.INSTRS_WITH_OPARG_IN_NAMES
  || mem randomized_opcode Fuzzer.INSTRS_WITH_OPARG_IN_VARNAMES
  || mem randomized_opcode Fuzzer.INSTRS_WITH_OPARG_IN_CLOSURE = true ->
  generate_oparg_for_randomized_opcode entropy fuel original_opcode
    randomized_opcode oparg t c = Ok ((new, t'), c') ->
  exists s j,
    new = VStr s
    /\ s <> ""
    /\ Z.of_nat (String.length s) <= STR_LEN_UPPER_BOUND
    /\ Forall (fun ch => In ch alphabet) (list_ascii_of_string s)
    /\ dict_get new
         (keys (if mem randomized_opcode Fuzzer.INSTRS_WITH_OPARG_IN_NAMES
                then names t'
                else if mem randomized_opcode
                          Fuzzer.INSTRS_WITH_OPARG_IN_VARNAMES
                     then varnames t' else freevars t')) = Some j.
Proof.
  intros Hc Hn H. unfold generate_oparg_for_randomized_opcode in H.
  apply bind_Ok in H. destruct H as [t1 [c1 [_ H]]].
  exact (insert_new_oparg_name _ _ _ _ _ _ _ _ _ Hc Hn H).
Qed.

(** The load of the name [m] becomes a load of a global. *)
Lemma substitution_new_name_witness :
  let entropy := fun n => Z.of_nat n + 1 in
  let t :=
    mkTables [] (table_of [("m", 0); ("n", 1)]) (table_of []) (table_of [])
      (table_of []) in
  exists t' s j,
    generate_oparg_for_randomized_opcode entropy 3 "LOAD_NAME" "LOAD_GLOBAL"
      (VStr "m") t 0%nat = Ok ((VStr "c", t'), 2%nat)
    /\ VStr "c" = VStr s
    /\ s <> ""
    /\ Z.of_nat (String.length s) <= STR_LEN_UPPER_BOUND
    /\ Forall (fun ch => In ch alphabet) (list_ascii_of_string s)
    /\ dict_get (VStr "c") (keys (names t')) = Some j.
Proof.
  intros entropy t. eexists.
  destruct (substitution_new_name entropy 3 "LOAD_NAME" "LOAD_GLOBAL"
              (VStr "m") t 0%nat (VStr "c") _ 2%nat eq_refl eq_refl eq_refl)
    as [s [j H]].
  exists s, j. split; [reflexivity | exact H].
Defined.

(** X13. When the new opcode has its operand in no table, the
    substitution draws once and never again: the operand is the integer
    that this one draw gives in 0..2^32-1 (the original it is compared
    with is -1), at any recursion depth above 0, and the tables are as
    the deletion of the original operand left them. *)
Theorem substitution_integer_operand (entropy : nat -> Z) (fuel : nat)
    (original_opcode randomized_opcode : string) (oparg : PyVal)
    (t t1 : Tables) (c : nat) :
  mem randomized_opcode Fuzzer.INSTRS_WITH_OPARG_IN_CONSTS = false ->
  mem randomized_opcode Fuzzer.INSTRS_WITH_OPARG_IN_NAMES = false ->
  mem randomized_opcode Fuzzer.INSTRS_WITH_OPARG_IN_VARNAMES = false ->
  mem randomized_opcode Fuzzer.INSTRS_WITH_OPARG_IN_CLOSURE = false ->
  delete_original_oparg original_opcode oparg t = Ok t1 ->
  generate_oparg_for_randomized_opcode entropy (S fuel) original_opcode
    randomized_opcode oparg t c
  = Ok ((VInt (drawn entropy 0 (2 ^ 32 - 1) c), t1), S c)
  /\ 0 <= drawn entropy 0 (2 ^ 32 - 1) c <= 2 ^ 32 - 1.
Proof.
  intros H1 H2 H3 H4 Hd.
  assert (Hr : 0 <= drawn entropy 0 (2 ^ 32 - 1) c <= 2 ^ 32 - 1).
  { unfold drawn.
    assert (0 <= entropy c mod (2 ^ 32 - 1 - 0 + 1) < 2 ^ 32 - 1 - 0 + 1)
      by (apply Z.mod_pos_bound; lia).
    lia. }
  split; [|exact Hr].
  unfold generate_oparg_for_randomized_opcode, bind, lift. rewrite Hd.
  unfold insert_new_oparg. rewrite H1, H2, H3, H4.
  cbn [generate_random_integer]. unfold bind, randint.
  unfold OPARG_LOWER_BOUND, OPARG_UPPER_BOUND.
  change (2 ^ 32 - 1 <? 0) with false. cbv iota.
  destruct (drawn entropy 0 (2 ^ 32 - 1) c =? -1) eqn:E;
    [apply Z.eqb_eq in E; lia | reflexivity].
Qed.

(** [DELETE_NAME m] becomes [NOP]. *)
Lemma substitution_integer_operand_witness :
  let t :=
    mkTables [] (table_of [("m", 0); ("n", 1)]) (table_of []) (table_of [])
      (table_of []) in
  let t1 :=
    mkTables [] (table_of [("n", 1)]) (table_of []) (table_of [])
      (table_of []) in
  generate_oparg_for_randomized_opcode (fun _ => 2 ^ 32 + 5) 1 "DELETE_NAME"
    "NOP" (VStr "m") t 3%nat
  = Ok ((VInt (drawn (fun _ => 2 ^ 32 + 5) 0 (2 ^ 32 - 1) 3%nat), t1), 4%nat)
  /\ 0 <= drawn (fun _ => 2 ^ 32 + 5) 0 (2 ^ 32 - 1) 3%nat <= 2 ^ 32 - 1.
Proof.
  intros t t1.
  apply (substitution_integer_operand (fun _ => 2 ^ 32 + 5) 0 "DELETE_NAME"
           "NOP" (VStr "m") t t1 3%nat); reflexivity.
Defined.

(** X14. A substitution whose original operand is not in the table of the
    original opcode raises KeyError, before anything is drawn: for the
    constant pool when the key of the operand, a key that equals itself,
    is not in it, for the names and the local slots when the operand is
    not in them, for the closure when the operand is neither a free nor a
    cell variable. *)
Theorem substitution_missing_operand (entropy : nat -> Z) (fuel : nat)
    (original_opcode randomized_opcode : string) (oparg : PyVal) (t : Tables)
    (c : nat) :
  (mem original_opcode Fuzzer.INSTRS_WITH_OPARG_IN_CONSTS = true ->
   py_eq (get_const_key oparg) (get_const_key oparg) = true ->
   dict_contains (get_const_key oparg) (consts t) = false ->
   generate_oparg_for_randomized_opcode entropy fuel original_opcode
     randomized_opcode oparg t c = Raise KeyError)
  /\ (mem original_opcode Fuzzer.INSTRS_WITH_OPARG_IN_NAMES = true ->
      iset_contains oparg (names t) = false ->
      generate_oparg_for_randomized_opcode entropy fuel original_opcode
        randomized_opcode oparg t c = Raise KeyError)
  /\ (mem original_opcode Fuzzer.INSTRS_WITH_OPARG_IN_VARNAMES = true ->
      iset_contains oparg (varnames t) = false ->
      generate_oparg_for_randomized_opcode entropy fuel original_opcode
        randomized_opcode oparg t c = Raise KeyError)
  /\ (mem original_opcode Fuzzer.INSTRS_WITH_OPARG_IN_CLOSURE = true ->
      iset_contains oparg (freevars t) = false ->
      iset_contains oparg (cellvars t) = false ->
      generate_oparg_for_randomized_opcode entropy fuel original_opcode
        randomized_opcode oparg t c = Raise KeyError).
Proof.
  unfold generate_oparg_for_randomized_opcode, bind, lift,
    delete_original_oparg, iset_del, dict_del, iset_contains.
  split; [|split; [|split]].
  - intros -> _ ->. reflexivity.
  - intros M H. rewrite (names_set_exclusive _ M), M, H. reflexivity.
  - intros M H. destruct (varnames_set_exclusive _ M) as [-> ->].
    rewrite M, H. reflexivity.
  - intros M Hf Hc. destruct (closure_set_exclusive _ M) as [-> [-> ->]].
    rewrite M, Hf, Hc. reflexivity.
Qed.

(** The name [z] is not in the names. *)
Lemma substitution_missing_operand_witness :
  generate_oparg_for_randomized_opcode (fun _ => 1) 3 "LOAD_NAME"
    "LOAD_GLOBAL" (VStr "z")
    (mkTables [] (table_of [("m", 0); ("n", 1)]) (table_of []) (table_of [])
       (table_of [])) 0%nat
  = Raise KeyError.
Proof.
  apply (proj1 (proj2 (substitution_missing_operand (fun _ => 1) 3 "LOAD_NAME"
                         "LOAD_GLOBAL" (VStr "z")
                         (mkTables [] (table_of [("m", 0); ("n", 1)])
                            (table_of []) (table_of []) (table_of []))
                         0%nat))); reflexivity.
Defined.

(** X15. For an opcode that is not table-resident, [randomize_oparg]
    leaves every table as it is and emits the instruction with its
    original operand; the encoded operand is the original one too for a
    branch, an opcode of variable effect and an opcode of the constant
    pool, which are thus emitted unchanged. *)
Theorem randomize_oparg_keeps_operand (entropy : nat -> Z) (fuel : nat)
    (opcode : string) (oparg : PyVal) (ioparg : Z) (self self' : FuzzerState)
    (c c' : nat) :
  do_not_emit_bytecode (graph self) = false ->
  table_resident opcode = false ->
  randomize_oparg entropy fuel opcode oparg ioparg self c = Ok (self', c') ->
  tables (graph self') = tables (graph self)
  /\ closure (graph self') = closure (graph self)
  /\ exists j,
       current (graph self')
       = (current (graph self) ++ [mkInstruction opcode oparg j])%list
       /\ (mem opcode Fuzzer.INSTRS_WITH_BRANCHES
           || mem opcode Fuzzer.INSTRS_WITH_OPARG_AFFECTING_STACK
           || mem opcode Fuzzer.INSTRS_WITH_OPARG_IN_CONSTS = true ->
           j = ioparg).
Proof.
  intros Hflag Hres H. unfold randomize_oparg in H. rewrite Hflag in H.
  apply bind_Ok in H. destruct H as [[r record] [c1 [_ H]]].
  unfold table_resident in Hres.
  apply orb_false_elim in Hres. destruct Hres as [Hres H4].
  apply orb_false_elim in Hres. destruct Hres as [Hres H3].
  apply orb_false_elim in Hres. destruct Hres as [H1 H2].
  rewrite H1, H2, H3, H4 in H.
  apply bind_Ok in H. destruct H as [j [c2 [Hj H]]]. inversion H; subst.
  simpl. split; [reflexivity|]. split; [reflexivity|].
  exists j. split; [reflexivity|].
  intros Hm.
  rewrite (generate_random_ioparg_kept entropy fuel opcode ioparg c1 Hm)
    in Hj.
  now inversion Hj.
Qed.

(** A [RETURN_VALUE] goes through as it is. *)
Lemma randomize_oparg_keeps_operand_witness :
  let self :=
    mkFuzzer
      (mkGraph false
         (mkTables [] (table_of [("m", 0)]) (table_of []) (table_of [])
            (table_of []))
         (table_of []) []) [] in
  exists self',
    randomize_oparg (fun _ => 1) 3 "RETURN_VALUE" VNone 0 self 0%nat
    = Ok (self', 0%nat)
    /\ tables (graph self') = tables (graph self)
    /\ closure (graph self') = closure (graph self)
    /\ exists j,
         current (graph self')
         = (current (graph self) ++ [mkInstruction "RETURN_VALUE" VNone j])%list
         /\ (mem "RETURN_VALUE" Fuzzer.INSTRS_WITH_BRANCHES
             || mem "RETURN_VALUE" Fuzzer.INSTRS_WITH_OPARG_AFFECTING_STACK
             || mem "RETURN_VALUE" Fuzzer.INSTRS_WITH_OPARG_IN_CONSTS = true ->
             j = 0).
Proof.
  intros self. eexists. split; [reflexivity|].
  apply (randomize_oparg_keeps_operand (fun _ => 1) 3 "RETURN_VALUE" VNone 0
           self _ 0%nat 0%nat); reflexivity.
Defined.


(** ** The decision of [emit] *)

Lemma set_first_inst_lineno_base opcode ioparg fg :
  base (set_first_inst_lineno opcode ioparg fg) = base fg.
Proof.
  unfold set_first_inst_lineno.
  now destruct (String.eqb opcode "SET_LINENO" && (first_inst_lineno fg =? 0)).
Qed.

Lemma lift_Ok {A} (r : Res A) c a c' :
  lift r c = Ok (a, c') -> r = Ok a /\ c' = c.
Proof. unfold lift. destruct r; intros H; inversion H; tauto. Qed.

(** What a call of [randomize_oparg] for an opcode that is not
    table-resident does. *)
Lemma randomize_oparg_plain entropy fuel opcode oparg ioparg self c self' c' :
  do_not_emit_bytecode (graph self) = false ->
  table_resident opcode = false ->
  randomize_oparg entropy fuel opcode oparg ioparg self c = Ok (self', c') ->
  exists j c1,
    generate_random_ioparg entropy fuel opcode ioparg c1 = Ok (j, c')
    /\ graph self'
       = emit_instr (mkInstruction opcode oparg j) (tables (graph self))
           (graph self).
Proof.
  intros Hflag Hres H. unfold randomize_oparg in H. rewrite Hflag in H.
  apply bind_Ok in H. destruct H as [[r rec] [c1 [_ H]]].
  unfold table_resident in Hres.
  apply orb_false_elim in Hres. destruct Hres as [Hres H4].
  apply orb_false_elim in Hres. destruct Hres as [Hres H3].
  apply orb_false_elim in Hres. destruct Hres as [H1 H2].
  rewrite H1, H2, H3, H4 in H.
  apply bind_Ok in H. destruct H as [j [c2 [Hj H]]]. inversion H; subst.
  exists j, c1. split; [assumption | reflexivity].
Qed.

Section EmitFacts.
Variable entropy : nat -> Z.
Variable maybeEmitSetLineno : FlowGraph -> FlowGraph.
Variable is_block : PyVal -> bool.
Variable addOutEdge : PyVal -> FlowGraph -> FlowGraph.
Variable convertArg : string -> PyVal -> FlowGraph -> Res (Z * FlowGraph).

Lemma emit_substituted_Ok fuel opcode r oparg fg rec c self' c' :
  emit_substituted entropy convertArg fuel opcode r oparg fg rec c
  = Ok (self', c') ->
  exists new t2 j fg2,
    convertArg r new (with_tables t2 fg) = Ok (j, fg2)
    /\ record self' = rec
    /\ base (flow self')
       = emit_instr (mkInstruction r new j) (tables (base fg2)) (base fg2).
Proof.
  unfold emit_substituted. intros H.
  apply bind_Ok in H. destruct H as [[new t2] [c1 [_ H]]].
  apply bind_Ok in H. destruct H as [[j fg2] [c2 [Hl H]]].
  apply lift_Ok in Hl. destruct Hl as [Hl _]. inversion H; subst.
  exists new, t2, j, fg2. split; [assumption|]. split; [reflexivity|].
  simpl. now rewrite set_first_inst_lineno_base.
Qed.

Lemma emit_randomized_Ok fuel opcode oparg ioparg fg rec c self' c' :
  emit_randomized entropy fuel opcode oparg ioparg fg rec c = Ok (self', c') ->
  exists f,
    randomize_oparg entropy fuel opcode oparg ioparg (mkFuzzer (base fg) rec) c
    = Ok (f, c')
    /\ flow self'
       = set_first_inst_lineno opcode ioparg (with_base (graph f) fg)
    /\ record self' = oparg_randomizations f.
Proof.
  unfold emit_randomized. intros H.
  apply bind_Ok in H. destruct H as [f [c1 [Hf H]]]. inversion H; subst.
  exists f. split; [assumption|]. split; reflexivity.
Qed.

(** X16. A call of [emit] that returns has done one of three things. For
    a branch to a block (and an opcode other than [SET_LINENO]) it has
    drawn nothing, converted nothing and left the mutation record alone:
    the instruction goes through with the operands 0 and its target, or
    is dropped when the graph emits no bytecode. Otherwise it has
    converted the operand and then either substituted the opcode or
    randomized the operand with [randomize_oparg]. It substitutes only an
    eligible opcode that passes the guard [can_replace_oparg], by another
    opcode of the same class, and the substituted instruction is emitted
    whether or not the graph emits bytecode; the mutation record is left
    alone by a substitution. An opcode that is not eligible, or that
    fails the guard, is never substituted. *)
Theorem emit_decision (fuel : nat) (opcode : string) (oparg : PyVal)
    (self : Emitter) (c : nat) (self' : Emitter) (c' : nat) :
  emit entropy maybeEmitSetLineno is_block addOutEdge convertArg fuel opcode
    oparg self c = Ok (self', c') ->
  emit_outcome entropy maybeEmitSetLineno is_block addOutEdge convertArg fuel
    opcode oparg self c self' c'.
Proof.
  unfold emit, emit_outcome. intros H.
  destruct (negb (String.eqb opcode "SET_LINENO") && is_block oparg).
  - left. split; [reflexivity|].
    destruct (do_not_emit_bytecode (base (maybeEmitSetLineno (flow self))));
      simpl in H; inversion H; subst; tauto.
  - right.
    apply bind_Ok in H. destruct H as [[ioparg fg1] [c1 [Hl H]]].
    apply lift_Ok in Hl. destruct Hl as [Hconv ->].
    apply bind_Ok in H. destruct H as [r [c2 [Hr H]]].
    apply bind_Ok in H. destruct H as [chance [c3 [_ H]]].
    exists ioparg, fg1. split; [reflexivity|]. split; [assumption|].
    destruct ((chance <=? INSTR_RANDOMIZATION_CHANCE)
              && negb (String.eqb r opcode)
              && can_replace_oparg opcode (consts (tables (base fg1)))
                   (names (tables (base fg1))) (varnames (tables (base fg1)))
                   (closure (base fg1))) eqn:D.
    + left. apply andb_prop in D. destruct D as [D Hguard].
      apply andb_prop in D. destruct D as [_ Hne].
      apply negb_true_iff in Hne.
      assert (E : eligible opcode = true).
      { destruct (eligible opcode) eqn:E; [reflexivity|].
        rewrite (randomize_opcode_ineligible entropy fuel opcode c E) in Hr.
        inversion Hr; subst. now rewrite String.eqb_refl in Hne. }
      destruct (randomize_opcode_eligible entropy fuel opcode c E) as [Heq _].
      rewrite Heq in Hr. apply generate_random_opcode_In in Hr.
      destruct Hr as [Hr Hin].
      apply emit_substituted_Ok in H.
      destruct H as [new [t2 [j [fg2 [Hc2 [Hrec Hbase]]]]]].
      exists r, new, t2, j, fg2. tauto.
    + right. apply emit_randomized_Ok in H.
      destruct H as [f [Hf [Hflow Hrec]]].
      exists c3, f. split; [assumption|]. split; [|assumption].
      rewrite Hflow. now rewrite set_first_inst_lineno_base.
Qed.

(** X17. [emit] never substitutes a [SET_LINENO]. The graph takes the
    converted operand of its first [SET_LINENO] as the line number of its
    first instruction, while the instruction that is emitted keeps the
    original operand and carries another encoded operand, drawn in
    0..2^32-1; the tables are as the conversion left them. *)
Theorem emit_set_lineno (fuel : nat) (oparg : PyVal) (self : Emitter)
    (c : nat) (self' : Emitter) (c' : nat) :
  emit entropy maybeEmitSetLineno is_block addOutEdge convertArg fuel
    "SET_LINENO" oparg self c = Ok (self', c') ->
  exists ioparg fg1,
    convertArg "SET_LINENO" oparg (maybeEmitSetLineno (flow self))
    = Ok (ioparg, fg1)
    /\ first_inst_lineno (flow self')
       = (if first_inst_lineno fg1 =? 0 then ioparg
          else first_inst_lineno fg1)
    /\ (do_not_emit_bytecode (base fg1) = true ->
        base (flow self') = base fg1)
    /\ (do_not_emit_bytecode (base fg1) = false ->
        exists j,
          j <> ioparg /\ 0 <= j <= 2 ^ 32 - 1
          /\ base (flow self')
             = emit_instr (mkInstruction "SET_LINENO" oparg j)
                 (tables (base fg1)) (base fg1)).
Proof.
  unfold emit. change (negb (String.eqb "SET_LINENO" "SET_LINENO")) with false.
  cbn [andb]. intros H.
  apply bind_Ok in H. destruct H as [[ioparg fg1] [c1 [Hl H]]].
  apply lift_Ok in Hl. destruct Hl as [Hconv ->].
  apply bind_Ok in H. destruct H as [r [c2 [Hr H]]].
  rewrite (randomize_opcode_ineligible entropy fuel "SET_LINENO" c eq_refl)
    in Hr.
  inversion Hr; subst r c2. clear Hr.
  apply bind_Ok in H. destruct H as [chance [c3 [_ H]]].
  rewrite String.eqb_refl in H. cbn [negb] in H.
  rewrite andb_false_r in H. cbn [andb] in H.
  apply emit_randomized_Ok in H. destruct H as [f [Hf [Hflow Hrec]]].
  exists ioparg, fg1. split; [assumption|]. rewrite Hflow.
  split; [|split].
  - unfold set_first_inst_lineno. cbn [String.eqb Ascii.eqb Bool.eqb andb].
    simpl first_inst_lineno.
    now destruct (first_inst_lineno fg1 =? 0).
  - intros Hflag. rewrite set_first_inst_lineno_base. simpl.
    unfold randomize_oparg in Hf. simpl in Hf. rewrite Hflag in Hf.
    now inversion Hf.
  - intros Hflag. rewrite set_first_inst_lineno_base. simpl.
    apply (randomize_oparg_plain entropy fuel "SET_LINENO" oparg ioparg
             (mkFuzzer (base fg1) (record self)) c3 f c' Hflag eq_refl) in Hf.
    destruct Hf as [j [c4 [Hj Hg]]].
    apply (generate_random_ioparg_drawn entropy fuel "SET_LINENO" ioparg c4 j c'
             eq_refl eq_refl) in Hj.
    exists j. split; [tauto|]. split; [tauto | exact Hg].
Qed.

End EmitFacts.

(** A graph that emits no bytecode, the names [m] and [n], and the load
    of [m]: the opcode is substituted by [GET_ANEXT], and the instruction
    is emitted all the same. The operations of pyassem are stand-ins. *)
Lemma emit_decision_witness :
  let entropy := fun n => Z.of_nat n + 1 in
  let no_lineno := fun fg : FlowGraph => fg in
  let is_block := fun v => match v with VObj _ => true | _ => false end in
  let no_edge := fun (_ : PyVal) (fg : FlowGraph) => fg in
  let convert := fun (_ : string) (_ : PyVal) (fg : FlowGraph) => Ok (0, fg) in
  let self :=
    mkEmitter
      (mkFlowGraph
         (mkGraph true
            (mkTables [] (table_of [("m", 0); ("n", 1)]) (table_of [])
               (table_of []) (table_of []))
            (table_of []) []) 0 []) [] in
  exists self',
    emit entropy no_lineno is_block no_edge convert 3 "LOAD_NAME" (VStr "m")
      self 0%nat = Ok (self', 3%nat)
    /\ current (base (flow self')) = [mkInstruction "GET_ANEXT" (VInt 3) 0]
    /\ emit_outcome entropy no_lineno is_block no_edge convert 3 "LOAD_NAME"
         (VStr "m") self 0%nat self' 3%nat.
Proof.
  intros entropy no_lineno is_block no_edge convert self.
  eexists. split; [reflexivity|]. split; [reflexivity|].
  apply emit_decision. reflexivity.
Defined.

(** The first [SET_LINENO], for the line 7. *)
Lemma emit_set_lineno_witness :
  let entropy := fun n => Z.of_nat n + 1 in
  let no_lineno := fun fg : FlowGraph => fg in
  let is_block := fun v => match v with VObj _ => true | _ => false end in
  let no_edge := fun (_ : PyVal) (fg : FlowGraph) => fg in
  let convert :=
    fun (_ : string) (oparg : PyVal) (fg : FlowGraph) =>
      Ok (match oparg with VInt z => z | _ => 0 end, fg) in
  let self :=
    mkEmitter
      (mkFlowGraph
         (mkGraph false
            (mkTables [] (table_of []) (table_of []) (table_of [])
               (table_of []))
            (table_of []) []) 0 []) [] in
  exists self',
    emit entropy no_lineno is_block no_edge convert 3 "SET_LINENO" (VInt 7)
      self 0%nat = Ok (self', 3%nat)
    /\ first_inst_lineno (flow self') = 7
    /\ current (base (flow self')) = [mkInstruction "SET_LINENO" (VInt 7) 3]
    /\ exists ioparg fg1,
         convert "SET_LINENO" (VInt 7) (no_lineno (flow self))
         = Ok (ioparg, fg1)
         /\ first_inst_lineno (flow self')
            = (if first_inst_lineno fg1 =? 0 then ioparg
               else first_inst_lineno fg1)
         /\ (do_not_emit_bytecode (base fg1) = true ->
             base (flow self') = base fg1)
         /\ (do_not_emit_bytecode (base fg1) = false ->
             exists j,
               j <> ioparg /\ 0 <= j <= 2 ^ 32 - 1
               /\ base (flow self')
                  = emit_instr (mkInstruction "SET_LINENO" (VInt 7) j)
                      (tables (base fg1)) (base fg1)).
Proof.
  intros entropy no_lineno is_block no_edge convert self.
  eexists. split; [reflexivity|]. split; [reflexivity|].
  split; [reflexivity|].
  apply (emit_set_lineno entropy no_lineno is_block no_edge convert 3 (VInt 7)
           self 0%nat _ 3%nat).
  reflexivity.
Defined.


(** ** The report of [print_code_object] *)

Lemma code_size_consts code :
  code_size code = S (consts_size (co_consts_of code)).
Proof.
  destruct code as [bc consts n v cv fv]. reflexivity.
Qed.

Lemma report_consts level code :
  report level code
  = (print_one code level ++ consts_report level (co_consts_of code))%list.
Proof.
  destruct code as [bc consts n v cv fv]. cbn [report co_consts_of]. f_equal.
  induction consts as [|[x|sub] consts IH]; cbn [consts_report].
  - reflexivity.
  - exact IH.
  - now rewrite IH.
Qed.

Lemma push_code_consts_size level consts : forall stack,
  stack_size (push_code_consts level consts stack)
  = (consts_size consts + stack_size stack)%nat.
Proof.
  induction consts as [|[x|sub] consts IH]; intros stack; simpl.
  - reflexivity.
  - apply IH.
  - rewrite IH. simpl. lia.
Qed.

Lemma push_code_consts_report level consts : forall stack,
  stack_report (push_code_consts level consts stack)
  = (consts_report level consts ++ stack_report stack)%list.
Proof.
  induction consts as [|[x|sub] consts IH]; intros stack; simpl.
  - reflexivity.
  - apply IH.
  - rewrite IH. simpl. now rewrite app_assoc.
Qed.

Lemma print_while_report fuel : forall stack out,
  (stack_size stack < fuel)%nat ->
  print_while fuel stack out = Some (out ++ stack_report stack)%list.
Proof.
  induction fuel as [|fuel IH]; intros stack out Hlt; [lia|].
  destruct stack as [|[code level] rest]; simpl.
  - now rewrite app_nil_r.
  - rewrite IH.
    + rewrite push_code_consts_report, report_consts.
      now rewrite !app_assoc.
    + rewrite push_code_consts_size. simpl in Hlt.
      rewrite code_size_consts in Hlt. lia.
Qed.

Lemma report_length level code :
  List.length (report level code) = (8 * code_size code)%nat.
Proof.
  revert level code. fix IH 2. intros level code.
  rewrite report_consts, code_size_consts, length_app.
  destruct code as [bc consts n v cv fv]. cbn [print_one co_consts_of].
  assert (H : List.length (consts_report level consts)
              = (8 * consts_size consts)%nat).
  { induction consts as [|[x|sub] consts IHc]; simpl.
    - reflexivity.
    - exact IHc.
    - rewrite length_app, IHc, (IH (S level) sub). lia. }
  rewrite H. simpl. lia.
Qed.

(** X18. [print_code_object] ends, after as many turns of its loop as
    there are code objects in the code object, and prints eight lines for
    each of them, once: seven lines with the level and the six fields and
    an empty line after them. First come the lines of the code object
    itself, at level 0, then those of the code objects among its
    constants, the last constant first and each with all that is nested
    in it before the next, one level deeper at each nesting. *)
Theorem print_code_object_report (code : CodeType) (fuel : nat) :
  (code_size code < fuel)%nat ->
  print_code_object fuel code = Some (report O code)
  /\ List.length (report O code) = (8 * code_size code)%nat
  /\ (exists rest,
         report O code = (print_one code O ++ rest)%list
         /\ List.length (print_one code O) = 8%nat
         /\ last (print_one code O) (PrintLevel O) = PrintEmpty).
Proof.
  intros Hlt. split; [|split; [apply report_length|]].
  - unfold print_code_object. rewrite print_while_report.
    + simpl. now rewrite app_nil_r.
    + simpl. lia.
  - exists (consts_report O (co_consts_of code)).
    split; [apply report_consts|].
    destruct code as [bc consts n v cv fv]. split; reflexivity.
Qed.

(** A code object with two nested ones, the second of which has one of
    its own. *)
Lemma print_code_object_report_witness :
  let leaf := fun b => mkCode [b] [inl VNone] [] [] [] [] in
  let inner := mkCode [2] [inr (leaf 3)] [] [] [] [] in
  let code := mkCode [0] [inr (leaf 1); inl (VInt 5); inr inner] [] [] [] [] in
  print_code_object 5 code = Some (report O code)
  /\ List.length (report O code) = 32%nat
  /\ map (fun p => match p with PrintLevel l => Some l | _ => None end)
       (filter (fun p => match p with PrintLevel _ => true | _ => false end)
          (report O code))
     = [Some 0; Some 1; Some 2; Some 1]%nat.
Proof.
  intros leaf inner code.
  assert (H := print_code_object_report code 5 ltac:(vm_compute; lia)).
  split; [exact (proj1 H)|]. split; [exact (proj1 (proj2 H)) | reflexivity].
Defined.

(** * The generator of opcode.h *)

Section OpcodeHeader.
Import generate_opcode_h.

Lemma len_append (a b : string) : len (a ++ b) = len a + len b.
Proof.
  unfold len. induction a as [|ch a IH]; simpl String.length; [lia|].
  rewrite !Nat2Z.inj_succ. lia.
Qed.

Lemma blanks_len (n : nat) : len (blanks n) = Z.of_nat n.
Proof.
  unfold len. f_equal. induction n as [|n IH]; simpl; congruence.
Qed.

(** The field of ["%*d"] is as wide as asked, or as wide as the number
    when the number is wider. *)
Lemma format_star_d_len (width n : Z) :
  len (format_star_d width n) = Z.max (Z.abs width) (len (decimal n)).
Proof.
  unfold format_star_d.
  destruct (width <? 0); rewrite len_append, blanks_len; unfold len; lia.
Qed.

Lemma write_line_len (opcode : Opcode) (name : string) (opnum : Z) :
  len (write_line opcode name opnum)
  = 10 + len name
    + Z.max (Z.abs (max_op_len opcode - len name)) (len (decimal opnum)).
Proof.
  unfold write_line. rewrite !len_append, format_star_d_len.
  change (len " ") with 1. change (len backslash) with 1.
  change (len newline) with 1. change (len "  X(") with 4.
  change (len ", ") with 2. change (len ")") with 1. lia.
Qed.

(** A number of 0..999 has at most three digits. *)
Lemma decimal_three_digits (n : Z) : 0 <= n <= 999 -> len (decimal n) <= 3.
Proof.
  intros Hn.
  assert (Hall : forallb
            (fun k => Nat.leb (String.length (decimal (Z.of_nat k))) 3)
            (seq 0 1000) = true) by (vm_compute; reflexivity).
  rewrite forallb_forall in Hall.
  specialize (Hall (Z.to_nat n)). rewrite Z2Nat.id in Hall by lia.
  unfold len. apply Nat.leb_le in Hall; [lia|]. apply in_seq. lia.
Qed.

Lemma reduce_max_len (names : list string) : forall m,
  m <= fold_left (fun m elem => Z.max m (len elem)) names m
  /\ (forall name, In name names ->
        len name <= fold_left (fun m elem => Z.max m (len elem)) names m)
  /\ (fold_left (fun m elem => Z.max m (len elem)) names m = m
      \/ exists name,
           In name names
           /\ fold_left (fun m elem => Z.max m (len elem)) names m = len name).
Proof.
  induction names as [|x names IH]; intros m; simpl.
  - split; [lia|]. split; [intros ? []|now left].
  - destruct (IH (Z.max m (len x))) as (Hm & Hin & Hat).
    split; [lia|]. split.
    + intros name [<-|H]; [lia|now apply Hin].
    + destruct Hat as [Heq|(name & H & Heq)].
      * destruct (Z.max_spec m (len x)) as [[_ Hmax]|[_ Hmax]].
        -- right. exists x. split; [now left|]. lia.
        -- left. lia.
      * right. exists name. split; [now right|assumption].
Qed.

Lemma max_op_len_ge (opcode : Opcode) (name : string) :
  In name (opname opcode) -> len name + 3 <= max_op_len opcode.
Proof.
  intros H. unfold max_op_len.
  destruct (reduce_max_len (opname opcode) 0) as (_ & Hin & _).
  specialize (Hin name H). lia.
Qed.

(** X19. The entries that [main] writes between the header and the
    footer are aligned: when the opcode numbers are in 0..999 (the three
    digits that [max_op_len] leaves room for), every line that is written
    for an opcode name is as wide as every other, 10 characters more than
    [max_op_len], so the closing parentheses are in one column. The line
    of [HAVE_ARGUMENT] is as wide as they are when a name of 13
    characters or more is among the names. *)
Theorem main_entries_aligned (opcode : Opcode) (opcode_py outfile : string) :
  (forall name opnum,
      In name (opname opcode) ->
      dict_get (VStr name) (opmap opcode) = Some opnum ->
      0 <= opnum <= 999) ->
  (In "POP_EXCEPT" (opname opcode) ->
   0 <= HAVE_ARGUMENT opcode <= 999
   /\ exists name, In name (opname opcode) /\ 13 <= len name) ->
  exists entries,
    fst (main opcode opcode_py outfile) = (header :: entries ++ [footer])%list
    /\ Forall (fun line => len line = max_op_len opcode + 10) entries.
Proof.
  intros Hnum Hhave.
  exists (flat_map (write_entries opcode) (opname opcode)).
  split; [reflexivity|].
  apply Forall_flat_map, Forall_forall. intros name Hin.
  unfold write_entries. apply Forall_app. split.
  - destruct (dict_get (VStr name) (opmap opcode)) as [opnum|] eqn:Hget;
      [|constructor].
    constructor; [|constructor]. rewrite write_line_len.
    pose proof (max_op_len_ge opcode name Hin).
    pose proof (decimal_three_digits opnum (Hnum name opnum Hin Hget)). lia.
  - destruct (String.eqb name "POP_EXCEPT") eqn:Hpop; [|constructor].
    apply String.eqb_eq in Hpop. subst name.
    destruct (Hhave Hin) as (Hrange & long & Hlong & Hlen).
    constructor; [|constructor]. rewrite write_line_len.
    pose proof (max_op_len_ge opcode long Hlong).
    pose proof (decimal_three_digits _ Hrange).
    change (len "HAVE_ARGUMENT") with 13. lia.
Qed.

(** Five names, one of them a placeholder that is no opcode, and the
    longest of 17 characters. *)
Lemma main_entries_aligned_witness :
  let opcode :=
    mkOpcode
      [(VStr "POP_TOP", 1); (VStr "BEFORE_ASYNC_WITH", 52);
       (VStr "POP_EXCEPT", 89); (VStr "STORE_NAME", 90)]
      ["<0>"; "POP_TOP"; "BEFORE_ASYNC_WITH"; "POP_EXCEPT"; "STORE_NAME"]
      90 in
  max_op_len opcode = 20
  /\ exists entries,
       fst (main opcode "Lib/opcode.py" "Include/opcode.h")
       = (header :: entries ++ [footer])%list
       /\ Forall (fun line => len line = max_op_len opcode + 10) entries
       /\ List.length entries = 5%nat.
Proof.
  intros opcode. split; [reflexivity|].
  destruct (main_entries_aligned opcode "Lib/opcode.py" "Include/opcode.h")
    as (entries & Hmain & Hall).
  - intros name opnum Hin Hget. simpl in Hin.
    destruct Hin as [<-|[<-|[<-|[<-|[<-|[]]]]]]; vm_compute in Hget;
      inversion Hget; lia.
  - intros _. split; [vm_compute; split; discriminate|].
    exists "BEFORE_ASYNC_WITH". split; [simpl; tauto|vm_compute; discriminate].
  - exists entries. split; [exact Hmain|]. split; [exact Hall|].
    simpl in Hmain. injection Hmain as Hmain.
    apply (f_equal (@List.length string)) in Hmain.
    rewrite !length_app in Hmain. simpl in Hmain. lia.
Defined.

(** X20. [max_op_len] is the length of the longest name and 3 more: no
    name is longer than [max_op_len - 3], one of them has this length,
    and without any name [max_op_len] is 3. So the field that
    [write_line] leaves for the number of a name among the names has 3
    characters or more. *)
Theorem max_op_len_longest (opcode : Opcode) :
  (forall name, In name (opname opcode) -> len name + 3 <= max_op_len opcode)
  /\ (opname opcode = [] -> max_op_len opcode = 3)
  /\ (opname opcode <> [] ->
      exists name,
        In name (opname opcode) /\ max_op_len opcode = len name + 3).
Proof.
  split; [intros name; apply max_op_len_ge|]. split.
  - unfold max_op_len. intros ->. reflexivity.
  - intros Hne. unfold max_op_len.
    destruct (reduce_max_len (opname opcode) 0) as (_ & Hin & [H0|Hat]).
    + destruct (opname opcode) as [|x names] eqn:Hnames; [congruence|].
      exists x.
      assert (Hx : len x <= 0) by (rewrite <- H0; apply Hin; now left).
      split; [now left|]. rewrite H0. unfold len in *. lia.
    + destruct Hat as (name & H & Heq). exists name. split; [exact H|lia].
Qed.

End OpcodeHeader.
